(** * caddymetrics: the [extend_metrics] HTTP handler

    A shallow embedding of the Go package [extend_metrics]
    (metrics.go and the handler file holding [ServeHTTP]) together with
    the properties of its request instrumentation.

    Conventions of the embedding.
    - Go's [int] and [int64] are 64-bit two's complement; they are modelled
      as [Z] with the wrap-around of [+] written out ([int_add]).
    - Go strings are byte strings; [len] is the byte length.
    - [prometheus.Labels] (a [map[string]string]) is a [gmap string string];
      [http.Header] is a [gmap string (list string)].
    - A [float64] observed into a histogram is kept symbolically as the
      integer it is converted from: [Seconds d] stands for
      [time.Duration(d).Seconds()] and [float64_of_int n] for [float64(n)].
      Both conversions are monotone, so an order between two durations is
      an order between the observed values.
    - The metric client (prometheus) and the response recorder (caddyhttp)
      are external collaborators; they are modelled by the part of their
      behaviour that the handler relies on. *)

From Stdlib Require Import ZArith QArith String List Lia.
From stdpp Require Import base option list strings gmap fin_maps.

Local Open Scope Z_scope.
Local Open Scope string_scope.

(** ** Machine integers *)

Module GoInt.

Definition int_bits : Z := 64.
Definition max_int : Z := 2 ^ (int_bits - 1) - 1.
Definition min_int : Z := - 2 ^ (int_bits - 1).

(** Two's complement reduction of a mathematical integer to [int]. *)
Definition wrap (z : Z) : Z :=
  (z + 2 ^ (int_bits - 1)) mod 2 ^ int_bits - 2 ^ (int_bits - 1).

(** Go's [a + b] on [int]. *)
Definition int_add (a b : Z) : Z := wrap (a + b).

(** Go's builtin [len] on a string. *)
Definition len (s : string) : Z := Z.of_nat (String.length s).

Definition in_range (z : Z) : Prop := min_int <= z <= max_int.

End GoInt.
Export GoInt.

(** ** Size estimator *)

(** The fields of [http.Request] read by the handler.  [URL] is [None]
    for a nil [r.URL] and otherwise holds [r.URL.String()]. *)
Record Request : Type := mkRequest {
  URL : option string;
  Method : string;
  Proto : string;
  Header : gmap string (list string);
  Host : string;
  ContentLength : Z
}.

(** One iteration of [for name, values := range r.Header]. *)
Definition add_header_field (s : Z) (nv : string * list string) : Z :=
  foldl (fun s value => int_add s (len value)) (int_add s (len nv.1)) nv.2.

Definition computeApproximateRequestSize (r : Request) : Z :=
  let s := 0 in
  let s := match URL r with
           | Some u => int_add s (len u)
           | None => s
           end in
  let s := int_add s (len (Method r)) in
  let s := int_add s (len (Proto r)) in
  let s := foldl add_header_field s (map_to_list (Header r)) in
  let s := int_add s (len (Host r)) in
  let s := if bool_decide (ContentLength r <> -1)
           then int_add s (ContentLength r)
           else s in
  s.

(** The mathematical (unbounded) byte count of the header map. *)
Definition field_bytes (nv : string * list string) : Z :=
  len nv.1 + foldr (fun value acc => len value + acc) 0 nv.2.

Definition header_bytes (h : gmap string (list string)) : Z :=
  foldr (fun nv acc => field_bytes nv + acc) 0 (map_to_list h).

(** ** Metric registry (metrics.go) *)

Module Registry.

Inductive Kind : Type :=
| GaugeVec
| CounterVec
| HistogramVec (Buckets : list Q).

(** [prometheus.GaugeOpts], [CounterOpts] and [HistogramOpts]. *)
Record Opts : Type := mkOpts {
  Namespace : string;
  Subsystem : string;
  Name : string;
  Help : string
}.

(** A registered collector: its fully qualified name, help text, label
    schema and kind. *)
Record Desc : Type := mkDesc {
  fqName : string;
  help : string;
  variableLabels : list string;
  kind : Kind
}.

(** [prometheus.BuildFQName]. *)
Definition BuildFQName (namespace subsystem name : string) : string :=
  if bool_decide (name = "") then ""
  else if bool_decide (namespace <> "") && bool_decide (subsystem <> "")
       then namespace ++ "_" ++ subsystem ++ "_" ++ name
  else if bool_decide (namespace <> "") then namespace ++ "_" ++ name
  else if bool_decide (subsystem <> "") then subsystem ++ "_" ++ name
  else name.

(** [prometheus.DefBuckets]. *)
Definition DefBuckets : list Q :=
  [5 # 1000; 1 # 100; 25 # 1000; 5 # 100; 1 # 10; 25 # 100; 5 # 10;
   1 # 1; 25 # 10; 5 # 1; 10 # 1]%Q.

(** The loop of [prometheus.ExponentialBuckets]:
    [buckets[i] = start; start *= factor]. *)
Fixpoint exponential_loop (start factor : Q) (count : nat) : list Q :=
  match count with
  | O => []
  | S n => start :: exponential_loop (start * factor)%Q factor n
  end.

(** [prometheus.ExponentialBuckets]; [None] is its panic on a count
    below one, a non-positive start or a factor not above one. *)
Definition ExponentialBuckets (start factor : Q) (count : Z) : option (list Q) :=
  if bool_decide (count < 1) then None
  else if Qle_bool start 0 then None
  else if Qle_bool factor 1 then None
  else Some (exponential_loop start factor (Z.to_nat count)).

(** The default registerer: the collectors registered so far. *)
Definition registry : Type := list Desc.

(** [promauto.New*Vec]: build the collector and [MustRegister] it;
    [None] is the panic on an already registered name. *)
Definition register (o : Opts) (labels : list string) (k : Kind)
    (reg : registry) : option registry :=
  let fq := BuildFQName (Namespace o) (Subsystem o) (Name o) in
  if bool_decide (fq ∈ map fqName reg) then None
  else Some (reg ++ [mkDesc fq (Help o) labels k])%list.

Definition ns : string := "caddy".
Definition sub : string := "http_extend".
Definition basicLabels : list string := ["host"].
Definition httpLabels : list string := ["host"; "code"; "method"].

(** The metric part of [func init()]. *)
Definition init (reg : registry) : option registry :=
  reg ← register
    (mkOpts ns sub "requests_in_flight"
       "Number of requests currently handled by this server.")
    basicLabels GaugeVec reg;
  reg ← register
    (mkOpts ns sub "request_errors_total"
       "Number of requests resulting in middleware errors.")
    basicLabels CounterVec reg;
  reg ← register
    (mkOpts ns sub "requests_total" "Counter of HTTP(S) requests made.")
    basicLabels CounterVec reg;
  let durationBuckets := DefBuckets in
  sizeBuckets ← ExponentialBuckets (256 # 1) (4 # 1) 8;
  reg ← register
    (mkOpts ns sub "request_duration_seconds"
       "Histogram of round-trip request durations.")
    httpLabels (HistogramVec durationBuckets) reg;
  reg ← register
    (mkOpts ns sub "request_size_bytes"
       "Total size of the request. Includes body")
    httpLabels (HistogramVec sizeBuckets) reg;
  reg ← register
    (mkOpts ns sub "response_size_bytes" "Size of the returned response.")
    httpLabels (HistogramVec sizeBuckets) reg;
  register
    (mkOpts ns sub "response_duration_seconds"
       "Histogram of times to first byte in response bodies.")
    httpLabels (HistogramVec durationBuckets) reg.

Definition is_histogram (d : Desc) : bool :=
  match kind d with HistogramVec _ => true | _ => false end.

Definition buckets_of (d : Desc) : list Q :=
  match kind d with HistogramVec b => b | _ => [] end.

(** Each bucket bound is [factor] times the one before it. *)
Fixpoint grows_by (factor : Q) (l : list Q) : Prop :=
  match l with
  | a :: ((b :: _) as tl) => b = (a * factor)%Q /\ grows_by factor tl
  | _ => True
  end.

End Registry.

(** ** Errors *)

(** Go [error] values as the handler can tell them apart: a
    [caddyhttp.HandlerError] carries a status code (and may wrap a cause),
    any other error carries none, and an error may wrap another one
    ([Unwrap]).  A nil error is [None : option error]. *)
#[local] Set Warnings "-register-all".
Inductive error : Type :=
| errors_New (msg : string)
| HandlerError (StatusCode : Z) (Err : option error)
| fmt_Errorf (msg : string) (wrapped : error).
#[local] Set Warnings "register-all".

(** [errors.As(err, &handlerErr)] with [handlerErr] a
    [caddyhttp.HandlerError]: the status code of the first handler error
    on the [Unwrap] chain. *)
Fixpoint errors_As (err : error) : option Z :=
  match err with
  | errors_New _ => None
  | HandlerError sc _ => Some sc
  | fmt_Errorf _ wrapped => errors_As wrapped
  end.

(** ** Metric store *)

(** A value passed to [Observe]; see the conventions at the top. *)
Inductive float64 : Type :=
| Seconds (d : Z)
| float64_of_int (n : Z).

Inductive CounterVecId : Type := RequestCount | RequestErrors.
Inductive HistogramVecId : Type :=
  RequestDuration | RequestSize | ResponseSize | ResponseDuration.

#[export] Instance CounterVecId_eq_dec : EqDecision CounterVecId.
Proof. solve_decision. Defined.
#[export] Instance HistogramVecId_eq_dec : EqDecision HistogramVecId.
Proof. solve_decision. Defined.

(** The values behind the vectors of the [httpMetrics] struct, each keyed
    by the label values in the order of the vector's label schema.  A
    histogram is kept as the list of its observations, oldest first. *)
Record Metrics : Type := mkMetrics {
  requestInFlight : gmap (list string) Z;
  requestCount : gmap (list string) Z;
  requestErrors : gmap (list string) Z;
  requestDuration : gmap (list string) (list float64);
  requestSize : gmap (list string) (list float64);
  responseSize : gmap (list string) (list float64);
  responseDuration : gmap (list string) (list float64)
}.

Definition counterVec (c : CounterVecId) (m : Metrics) : gmap (list string) Z :=
  match c with
  | RequestCount => requestCount m
  | RequestErrors => requestErrors m
  end.

Definition histogramVec (h : HistogramVecId) (m : Metrics)
    : gmap (list string) (list float64) :=
  match h with
  | RequestDuration => requestDuration m
  | RequestSize => requestSize m
  | ResponseSize => responseSize m
  | ResponseDuration => responseDuration m
  end.

Definition set_requestInFlight (g : gmap (list string) Z) (m : Metrics) : Metrics :=
  mkMetrics g (requestCount m) (requestErrors m) (requestDuration m)
            (requestSize m) (responseSize m) (responseDuration m).

Definition set_counterVec (c : CounterVecId) (v : gmap (list string) Z)
    (m : Metrics) : Metrics :=
  match c with
  | RequestCount =>
      mkMetrics (requestInFlight m) v (requestErrors m) (requestDuration m)
                (requestSize m) (responseSize m) (responseDuration m)
  | RequestErrors =>
      mkMetrics (requestInFlight m) (requestCount m) v (requestDuration m)
                (requestSize m) (responseSize m) (responseDuration m)
  end.

Definition set_histogramVec (h : HistogramVecId)
    (v : gmap (list string) (list float64)) (m : Metrics) : Metrics :=
  match h with
  | RequestDuration =>
      mkMetrics (requestInFlight m) (requestCount m) (requestErrors m) v
                (requestSize m) (responseSize m) (responseDuration m)
  | RequestSize =>
      mkMetrics (requestInFlight m) (requestCount m) (requestErrors m)
                (requestDuration m) v (responseSize m) (responseDuration m)
  | ResponseSize =>
      mkMetrics (requestInFlight m) (requestCount m) (requestErrors m)
                (requestDuration m) (requestSize m) v (responseDuration m)
  | ResponseDuration =>
      mkMetrics (requestInFlight m) (requestCount m) (requestErrors m)
                (requestDuration m) (requestSize m) (responseSize m) v
  end.

(** Reading a series that was never touched gives the zero value. *)
Definition value_of (v : gmap (list string) Z) (lvs : list string) : Z :=
  default 0 (v !! lvs).

Definition observations_of (v : gmap (list string) (list float64))
    (lvs : list string) : list float64 :=
  default [] (v !! lvs).

(** ** The world a request runs in *)

(** What happens during a request, in order: every operation on a metric
    series, and the start and end of the delegation to the next handler. *)
Inductive Event : Type :=
| EvGaugeInc (lvs : list string)
| EvGaugeDec (lvs : list string)
| EvCounterInc (c : CounterVecId) (lvs : list string)
| EvObserve (h : HistogramVecId) (lvs : list string) (v : float64)
| EvNextCall
| EvNextReturn (err : option error)
| EvNextPanic.

(** [now] is the monotonic clock in nanoseconds, [httpMetrics] the
    package-level metric store and [log] the history of events. *)
Record World : Type := mkWorld {
  now : Z;
  httpMetrics : Metrics;
  log : list Event
}.

(** A Go call either returns or panics. *)
Inductive Result (A : Type) : Type :=
| Ok (a : A)
| Panic.
Arguments Ok {A} a.
Arguments Panic {A}.

Definition M (A : Type) : Type := World -> World * Result A.

Definition ret {A} (a : A) : M A := fun w => (w, Ok a).

Definition bind {A B} (c : M A) (k : A -> M B) : M B :=
  fun w =>
    match c w with
    | (w', Ok a) => k a w'
    | (w', Panic) => (w', Panic)
    end.

Definition panic {A} : M A := fun w => (w, Panic).

#[export] Instance M_ret : MRet M := @ret.
#[export] Instance M_bind : MBind M := fun A B k c => bind c k.

(** [defer d] registered before [body]: [d] runs when [body] returns and
    when it panics, and a panic of [body] goes on unwinding after it. *)
Definition defer {A} (d : M unit) (body : M A) : M A :=
  fun w =>
    match body w with
    | (w', r) =>
        match d w' with
        | (w'', Ok _) => (w'', r)
        | (w'', Panic) => (w'', Panic)
        end
    end.

(** The effect of an event on the metric store: [Inc] and [Dec] add and
    subtract one, [Observe] appends the value to the series; the
    delegation events leave the store alone. *)
Definition apply_event (m : Metrics) (e : Event) : Metrics :=
  match e with
  | EvGaugeInc lvs =>
      set_requestInFlight
        (<[lvs := value_of (requestInFlight m) lvs + 1]> (requestInFlight m)) m
  | EvGaugeDec lvs =>
      set_requestInFlight
        (<[lvs := value_of (requestInFlight m) lvs - 1]> (requestInFlight m)) m
  | EvCounterInc c lvs =>
      set_counterVec c
        (<[lvs := value_of (counterVec c m) lvs + 1]> (counterVec c m)) m
  | EvObserve h lvs v =>
      set_histogramVec h
        (<[lvs := (observations_of (histogramVec h m) lvs ++ [v])%list]>
           (histogramVec h m)) m
  | EvNextCall | EvNextReturn _ | EvNextPanic => m
  end.

(** Perform an event: the store changes and the log grows by it. *)
Definition emit (e : Event) : M unit :=
  fun w =>
    (mkWorld (now w) (apply_event (httpMetrics w) e) (log w ++ [e])%list, Ok tt).

(** *** Time *)

Definition maxDuration : Z := 2 ^ 63 - 1.
Definition minDuration : Z := - 2 ^ 63.

(** [time.Now()]: the monotonic reading. *)
Definition time_Now : M Z := fun w => (w, Ok (now w)).

(** The difference of two monotonic readings, saturated to the range of
    [time.Duration]. *)
Definition subMono (t u : Z) : Z :=
  Z.max minDuration (Z.min maxDuration (t - u)).

(** [time.Since(start)] for a [start] that holds a monotonic reading. *)
Definition time_Since (start : Z) : M Z :=
  fun w => (w, Ok (subMono (now w) start)).

(** *** The metric client *)

(** The label check of [With]: the labels must be exactly those of the
    schema; the result is their values in schema order. *)
Definition label_values (schema : list string) (labels : gmap string string)
    : option (list string) :=
  if bool_decide (size labels = List.length schema)
  then mapM (fun name => labels !! name) schema
  else None.

(** [vec.With(labels)]: the series for the label values, or a panic when
    the labels do not fit the schema.  The client also refuses a label
    value that is not valid UTF-8; label values are taken to be valid
    UTF-8 throughout, that check is not part of the model. *)
Definition With (schema : list string) (labels : gmap string string)
    : M (list string) :=
  match label_values schema labels with
  | Some lvs => ret lvs
  | None => panic
  end.

Definition Gauge_Inc (lvs : list string) : M unit := emit (EvGaugeInc lvs).

Definition Gauge_Dec (lvs : list string) : M unit := emit (EvGaugeDec lvs).

Definition Counter_Inc (c : CounterVecId) (lvs : list string) : M unit :=
  emit (EvCounterInc c lvs).

Definition Histogram_Observe (h : HistogramVecId) (lvs : list string)
    (v : float64) : M unit :=
  emit (EvObserve h lvs v).

(** ** The response recorder (caddyhttp) *)

(** The fields of [caddyhttp.responseRecorder] the handler depends on. *)
Record responseRecorder : Type := mkRecorder {
  statusCode : Z;
  size : Z;
  wroteHeader : bool;
  stream : bool
}.

(** [caddyhttp.NewResponseRecorder(w, nil, shouldBuffer)]. *)
Definition NewResponseRecorder : responseRecorder := mkRecorder 0 0 false false.

Definition Status (rr : responseRecorder) : Z := statusCode rr.
Definition Size (rr : responseRecorder) : Z := size rr.

(** A 1xx status: the recorder's test [statusCode < 100 || statusCode > 199]
    fails for it. *)
Definition informational (status : Z) : bool :=
  Z.leb 100 status && Z.leb status 199.

Section Recorder.
(** The [ShouldBufferFunc] installed in the recorder is a closure over
    mutable state of its creator; [S] is that state. *)
Context {S : Type}.
Variable shouldBuffer : Z -> S -> M (S * bool).

(** [rr.WriteHeader(status)]: nothing once the header is written;
    before that every call stores the status and asks [shouldBuffer],
    and only a status that is not informational marks the header as
    written, so that the final head can follow informational ones. *)
Definition WriteHeader (status : Z) (st : S) (rr : responseRecorder)
    : M (S * responseRecorder) :=
  if wroteHeader rr then mret (st, rr)
  else
    '(st, buffer) ← shouldBuffer status st;
    mret (st, mkRecorder status (size rr) (negb (informational status))
                         (negb buffer)).

(** [rr.Write(data)] where the wrapped writer takes [n] bytes: the
    header is written with status 200 if it was not yet, and the size
    grows by [n]. *)
Definition Write (n : Z) (st : S) (rr : responseRecorder)
    : M (S * responseRecorder) :=
  '(st, rr) ← WriteHeader 200 st rr;
  mret (st, mkRecorder (statusCode rr) (int_add (size rr) n)
                       (wroteHeader rr) (stream rr)).
End Recorder.

(** ** The next handler *)

(** What a handler does with the response writer it is given, and how
    long it takes: it writes a head, writes body bytes, or lets time
    pass.  Time also passes in the instrumentor itself; that time is
    counted with the step of the handler it follows. *)
Inductive Action : Type :=
| DoWriteHeader (status : Z)
| DoWrite (n : N)
| DoElapse (d : N).

(** How [next.ServeHTTP] ends: it returns an error (or nil), or panics. *)
Inductive Outcome : Type :=
| Returns (err : option error)
| Panics.

Record Handler : Type := mkHandler {
  actions : list Action;
  outcome : Outcome
}.

Definition elapse (d : N) : M unit :=
  fun w => (mkWorld (now w + Z.of_N d) (httpMetrics w) (log w), Ok tt).

Definition emits_head (a : Action) : bool :=
  match a with
  | DoWriteHeader _ | DoWrite _ => true
  | DoElapse _ => false
  end.

Section Delegation.
Context {S : Type}.
Variable shouldBuffer : Z -> S -> M (S * bool).

Definition run_action (a : Action) (st : S) (rr : responseRecorder)
    : M (S * responseRecorder) :=
  match a with
  | DoWriteHeader status => WriteHeader shouldBuffer status st rr
  | DoWrite n => Write shouldBuffer (Z.of_N n) st rr
  | DoElapse d => elapse d;; mret (st, rr)
  end.

Fixpoint run_actions (acts : list Action) (st : S) (rr : responseRecorder)
    : M (S * responseRecorder) :=
  match acts with
  | [] => mret (st, rr)
  | a :: acts =>
      '(st, rr) ← run_action a st rr;
      run_actions acts st rr
  end.

(** [err := next.ServeHTTP(wrec, r)]. *)
Definition next_ServeHTTP (next : Handler) (st : S) (rr : responseRecorder)
    : M (S * responseRecorder * option error) :=
  emit EvNextCall;;
  '(st, rr) ← run_actions (actions next) st rr;
  match outcome next with
  | Returns err => emit (EvNextReturn err);; mret (st, rr, err)
  | Panics => emit EvNextPanic;; panic
  end.
End Delegation.

(** ** The request instrumentor *)

(** The two label normalisation helpers of the package are not part of
    the sources at hand; the handler is parameterised by them. *)
Class Sanitizers : Type := {
  SanitizeMethod : string -> string;
  SanitizeCode : Z -> string
}.

(** Go's [m[key]] on a [map[string]string]: the empty string for a
    missing key. *)
Definition map_index (m : gmap string string) (key : string) : string :=
  default "" (m !! key).

Section Instrumentor.
Context `{!Sanitizers}.

(** The closure [writeHeaderRecorder]; it captures [start] and the map
    [statusLabels], which it updates in place. *)
Definition writeHeaderRecorder (start : Z) (status : Z)
    (statusLabels : gmap string string) : M (gmap string string * bool) :=
  let statusLabels := <["code" := SanitizeCode status]> statusLabels in
  ttfb ← time_Since start;
  series ← With Registry.httpLabels statusLabels;
  Histogram_Observe ResponseDuration series (Seconds ttfb);;
  mret (statusLabels, false).

(** The closure [observeRequest]; it captures [statusLabels], [dur],
    [r] and [wrec]. *)
Definition observeRequest (r : Request) (dur : Z) (wrec : responseRecorder)
    (status : Z) (statusLabels : gmap string string)
    : M (gmap string string) :=
  let statusLabels :=
    if bool_decide (map_index statusLabels "code" = "")
    then <["code" := SanitizeCode status]> statusLabels
    else statusLabels in
  series ← With Registry.httpLabels statusLabels;
  Histogram_Observe RequestDuration series (Seconds dur);;
  series ← With Registry.httpLabels statusLabels;
  Histogram_Observe RequestSize series
    (float64_of_int (computeApproximateRequestSize r));;
  series ← With Registry.httpLabels statusLabels;
  Histogram_Observe ResponseSize series (float64_of_int (Size wrec));;
  mret statusLabels.

Definition ServeHTTP (r : Request) (next : Handler) : M (option error) :=
  let labels : gmap string string := {[ "host" := Host r ]} in
  let method := SanitizeMethod (Method r) in
  let statusLabels : gmap string string :=
    <["host" := Host r]> (<["method" := method]> {[ "code" := "0" ]}) in
  inFlight ← With Registry.basicLabels labels;
  Gauge_Inc inFlight;;
  defer (Gauge_Dec inFlight) (
    start ← time_Now;
    let wrec := NewResponseRecorder in
    '(statusLabels, wrec, err) ←
      next_ServeHTTP (writeHeaderRecorder start) next statusLabels wrec;
    dur ← time_Since start;
    series ← With Registry.basicLabels labels;
    Counter_Inc RequestCount series;;
    match err with
    | Some e =>
        match errors_As e with
        | Some handlerErr_StatusCode =>
            observeRequest r dur wrec handlerErr_StatusCode statusLabels;;
            mret tt
        | None => mret tt
        end;;
        series ← With Registry.basicLabels labels;
        Counter_Inc RequestErrors series;;
        mret (Some e)
    | None =>
        observeRequest r dur wrec (Status wrec) statusLabels;;
        mret None
    end).
End Instrumentor.

(** Modelled from the spec: [SanitizeMethod] and [SanitizeCode] are
    called by the handler but not defined in the sources, and the spec
    asks of them only that they are deterministic with a bounded range.
    This instance serves to run the handler on concrete requests; no
    general statement depends on it.  Methods outside a fixed list
    collapse to "OTHER"; a status code maps to its class of hundred. *)
Definition sampleSanitizers : Sanitizers := {|
  SanitizeMethod m :=
    if bool_decide (m ∈ ["GET"; "HEAD"; "POST"; "PUT"; "DELETE"; "OPTIONS"; "PATCH"])
    then m else "OTHER";
  SanitizeCode s :=
    if bool_decide (100 <= s < 200) then "1xx"
    else if bool_decide (200 <= s < 300) then "2xx"
    else if bool_decide (300 <= s < 400) then "3xx"
    else if bool_decide (400 <= s < 500) then "4xx"
    else if bool_decide (500 <= s < 600) then "5xx"
    else "other"
|}.

Definition emptyMetrics : Metrics := mkMetrics ∅ ∅ ∅ ∅ ∅ ∅ ∅.
Definition emptyWorld : World := mkWorld 0 emptyMetrics [].

(** The status label map of a request: host, method and code. *)
Definition status_labels (h m c : string) : gmap string string :=
  <["host" := h]> (<["method" := m]> {[ "code" := c ]}).

(** The world after [dt] nanoseconds and the events [evs]. *)
Definition advance (w : World) (dt : Z) (evs : list Event) : World :=
  mkWorld (now w + dt) (foldl apply_event (httpMetrics w) evs)
          (log w ++ evs)%list.

(** The event with which the next handler's call ends. *)
Definition end_event (o : Outcome) : Event :=
  match o with
  | Returns err => EvNextReturn err
  | Panics => EvNextPanic
  end.

Definition is_gauge_event (e : Event) : bool :=
  match e with
  | EvGaugeInc _ | EvGaugeDec _ => true
  | _ => false
  end.

Definition is_delegation_event (e : Event) : bool :=
  match e with
  | EvNextCall | EvNextReturn _ | EvNextPanic => true
  | _ => false
  end.

(** An observation of the time to first byte. *)
Definition is_ttfb_event (e : Event) : bool :=
  match e with
  | EvObserve ResponseDuration _ _ => true
  | _ => false
  end.

(** An increment of a counter, or an observation into one of the three
    histograms written at finalization. *)
Definition is_completion_event (e : Event) : bool :=
  match e with
  | EvCounterInc _ _ => true
  | EvObserve RequestDuration _ _ | EvObserve RequestSize _ _
  | EvObserve ResponseSize _ _ => true
  | _ => false
  end.

(** What one event adds to the gauge series [lvs], to the series [lvs]
    of counter [c], and to the series [lvs] of histogram [h]. *)
Definition gauge_delta (lvs : list string) (e : Event) : Z :=
  match e with
  | EvGaugeInc l => if bool_decide (l = lvs) then 1 else 0
  | EvGaugeDec l => if bool_decide (l = lvs) then -1 else 0
  | _ => 0
  end.

Definition counter_delta (c : CounterVecId) (lvs : list string) (e : Event) : Z :=
  match e with
  | EvCounterInc c' l => if bool_decide (c' = c /\ l = lvs) then 1 else 0
  | _ => 0
  end.

Definition observed (h : HistogramVecId) (lvs : list string) (e : Event)
    : list float64 :=
  match e with
  | EvObserve h' l v => if bool_decide (h' = h /\ l = lvs) then [v] else []
  | _ => []
  end.

Definition gauge_total (lvs : list string) (evs : list Event) : Z :=
  foldr (fun e acc => gauge_delta lvs e + acc) 0 evs.

Definition counter_total (c : CounterVecId) (lvs : list string)
    (evs : list Event) : Z :=
  foldr (fun e acc => counter_delta c lvs e + acc) 0 evs.

Definition all_observed (h : HistogramVecId) (lvs : list string)
    (evs : list Event) : list float64 :=
  foldr (fun e acc => observed h lvs e ++ acc)%list [] evs.

(** ** Vocabulary of the properties *)

(** The unbounded sum the estimator approximates. *)
Definition exact_size (r : Request) : Z :=
  from_option len 0 (URL r) + len (Method r) + len (Proto r)
  + header_bytes (Header r) + len (Host r)
  + (if bool_decide (ContentLength r = -1) then 0 else ContentLength r).

Section RegistryVocabulary.
Import Registry.

Definition size_histograms : list string :=
  ["caddy_http_extend_request_size_bytes";
   "caddy_http_extend_response_size_bytes"].

Definition duration_histograms : list string :=
  ["caddy_http_extend_request_duration_seconds";
   "caddy_http_extend_response_duration_seconds"].

Definition kind_name (d : Desc) : string :=
  match kind d with
  | GaugeVec => "gauge"
  | CounterVec => "counter"
  | HistogramVec _ => "histogram"
  end.

(** Name, kind and label schema of every collector, in order. *)
Definition collectors (reg : registry) : list (string * string * list string) :=
  map (fun d => (fqName d, kind_name d, variableLabels d)) reg.

(** What holds of a registry in which the handler's instruments are
    registered, whatever their number. *)
Definition well_registered (reg : registry) : Prop :=
  NoDup (map fqName reg) /\
  Forall (fun d => String.prefix (ns ++ "_" ++ sub ++ "_") (fqName d) = true) reg /\
  Forall (fun d => variableLabels d
                   = if is_histogram d then ["host"; "code"; "method"]
                     else ["host"]) reg /\
  map fqName (filter (fun d => is_histogram d = true) reg)
    = [ "caddy_http_extend_request_duration_seconds";
        "caddy_http_extend_request_size_bytes";
        "caddy_http_extend_response_size_bytes";
        "caddy_http_extend_response_duration_seconds" ] /\
  Forall (fun d => fqName d ∈ duration_histograms ->
                   buckets_of d = DefBuckets) reg /\
  Forall (fun d => fqName d ∈ size_histograms ->
                   List.length (buckets_of d) = 8%nat /\
                   head (buckets_of d) = Some (256 # 1)%Q /\
                   grows_by (4 # 1) (buckets_of d)) reg.

End RegistryVocabulary.

Section Trace.
Context `{!Sanitizers}.

(** The observation made by the status capture hook when the head with
    [status] is written at clock reading [t]. *)
Definition ttfb_event (start : Z) (h m : string) (status t : Z) : Event :=
  EvObserve ResponseDuration [h; SanitizeCode status; m]
            (Seconds (subMono t start)).

(** The three observations of [observeRequest] under the code [c]. *)
Definition finalization (r : Request) (h m c : string) (dur : Z)
    (wrec : responseRecorder) : list Event :=
  [ EvObserve RequestDuration [h; c; m] (Seconds dur);
    EvObserve RequestSize [h; c; m]
              (float64_of_int (computeApproximateRequestSize r));
    EvObserve ResponseSize [h; c; m] (float64_of_int (Size wrec)) ].

(** The code label after [observeRequest] tested it against the empty
    string. *)
Definition final_code (c : string) (status : Z) : string :=
  if bool_decide (c = "") then SanitizeCode status else c.

(** What the instrumentor does after the next handler returned [err]:
    finalization and error counting. *)
Definition after_return (r : Request) (c : string) (dur : Z)
    (wrec : responseRecorder) (err : option error) : list Event :=
  let h := Host r in
  let m := SanitizeMethod (Method r) in
  match err with
  | None => finalization r h m (final_code c (Status wrec)) dur wrec
  | Some e =>
      match errors_As e with
      | Some sc => finalization r h m (final_code c sc) dur wrec
      | None => []
      end ++ [EvCounterInc RequestErrors [h]]
  end.

(** The events of one request, given what the delegation did: the
    events [head] of the hook, the code label [c] it left, the
    recorder [wrec] and the duration [dur]. *)
Definition request_events (r : Request) (o : Outcome) (head : list Event)
    (c : string) (dur : Z) (wrec : responseRecorder) : list Event :=
  [EvGaugeInc [Host r]; EvNextCall] ++ head ++
  match o with
  | Returns err =>
      [EvNextReturn err; EvCounterInc RequestCount [Host r]]
      ++ after_return r c dur wrec err
  | Panics => [EvNextPanic]
  end ++ [EvGaugeDec [Host r]].

Definition request_result (o : Outcome) : Result (option error) :=
  match o with
  | Returns err => Ok err
  | Panics => Panic
  end.

End Trace.

(** ** Caddyfile configuration *)

Module Caddyfile.

(** A token of [caddyfile.Dispenser]: where it was read, and its text. *)
Record Token : Type := mkToken {
  File : string;
  Line : Z;
  Text : string
}.

(** [caddyfile.Dispenser]: the tokens of one directive and the cursor. *)
Record Dispenser : Type := mkDispenser {
  tokens : list Token;
  cursor : Z
}.

(** A dispenser as the directive's setup function receives it: before
    its first token, the name of the directive. *)
Definition NewDispenser (toks : list Token) : Dispenser := mkDispenser toks (-1).

(** [d.Val()]: the text of the current token, empty outside the tokens. *)
Definition Val (d : Dispenser) : string :=
  if bool_decide (cursor d < 0 \/ Z.of_nat (List.length (tokens d)) <= cursor d)
  then ""
  else from_option Text "" (tokens d !! Z.to_nat (cursor d)).

(** [CaddyMetrics]: the handler; its logger is never set here. *)
Record CaddyMetrics : Type := mkCaddyMetrics {
  logger : option unit
}.

Section Unmarshal.
(** The test whether two adjacent tokens are on different lines is the
    dispenser's own affair (files, imports and line breaks inside a
    token); the way an argument error is worded is as well. *)
Variable isNextOnNewLine : Token -> Token -> bool.
Variable ArgErr : Dispenser -> error.

(** [d.nextOnSameLine()]. *)
Definition nextOnSameLine (d : Dispenser) : Dispenser * bool :=
  if bool_decide (cursor d < 0)
  then (mkDispenser (tokens d) (cursor d + 1), true)
  else if bool_decide (Z.of_nat (List.length (tokens d)) - 1 <= cursor d)
  then (d, false)
  else
    match tokens d !! Z.to_nat (cursor d), tokens d !! Z.to_nat (cursor d + 1) with
    | Some curr, Some next =>
        if negb (isNextOnNewLine curr next)
        then (mkDispenser (tokens d) (cursor d + 1), true)
        else (d, false)
    | _, _ => (d, false)
    end.

(** [d.NextArg()]: step to the next token of the line unless it opens a
    block. *)
Definition NextArg (d : Dispenser) : Dispenser * bool :=
  let (d, ok) := nextOnSameLine d in
  if negb ok then (d, false)
  else if bool_decide (Val d = "{")
  then (mkDispenser (tokens d) (cursor d - 1), false)
  else (d, true).

(** [(c *CaddyMetrics) UnmarshalCaddyfile(d)]. *)
Definition UnmarshalCaddyfile (d : Dispenser) : Dispenser * option error :=
  let (d, _) := NextArg d in
  let (d, more) := NextArg d in
  if more then (d, Some (ArgErr d))
  else (d, None).

(** [parseCaddyfile(h)], on the dispenser of the helper [h]: the handler
    is returned together with the error. *)
Definition parseCaddyfile (d : Dispenser)
    : Dispenser * (CaddyMetrics * option error) :=
  let metrics := mkCaddyMetrics None in
  let (d, err) := UnmarshalCaddyfile d in
  (d, (metrics, err)).

End Unmarshal.

End Caddyfile.

(** A request with another header map. *)
Definition with_Header (h : gmap string (list string)) (r : Request) : Request :=
  mkRequest (URL r) (Method r) (Proto r) h (Host r) (ContentLength r).

(** The collectors of the package, as [init] builds them. *)
Definition instruments : list Registry.Desc := default [] (Registry.init []).

(** ** Vocabulary of the handler and its actions *)

(** The heads of a handler that reach the hook, each with its status and
    the time that elapsed before it: the informational heads written
    before the final head, and the final head, which is the first
    [WriteHeader] with another status or the first [Write] (status 200).
    Nothing after the final head reaches the hook. *)
Fixpoint heads (acts : list Action) : list (Z * Z) :=
  match acts with
  | [] => []
  | DoWriteHeader status :: acts =>
      (status, 0) :: (if informational status then heads acts else [])
  | DoWrite _ :: _ => [(200, 0)]
  | DoElapse d :: acts => map (fun st => (st.1, Z.of_N d + st.2)) (heads acts)
  end.

(** The [WriteHeader] calls of a handler with an informational status. *)
Definition informational_heads (acts : list Action) : nat :=
  List.length
    (List.filter (fun a => match a with
                           | DoWriteHeader status => informational status
                           | _ => false
                           end) acts).

(** Whether the handler wrote a final head. *)
Definition wrote_final_head (acts : list Action) : bool :=
  existsb (fun st => negb (informational st.1)) (heads acts).

(** The time a handler takes, and the body bytes it writes. *)
Definition elapsed (acts : list Action) : Z :=
  foldr (fun a acc => match a with DoElapse d => Z.of_N d + acc | _ => acc end)
        0 acts.

Definition bytes_written (acts : list Action) : Z :=
  foldr (fun a acc => match a with DoWrite n => Z.of_N n + acc | _ => acc end)
        0 acts.

(** The recorder after one action of a handler whose hook never asks to
    buffer, and after a list of them. *)
Definition record_action (rr : responseRecorder) (a : Action) : responseRecorder :=
  match a with
  | DoWriteHeader status =>
      if wroteHeader rr then rr
      else mkRecorder status (size rr) (negb (informational status)) true
  | DoWrite n =>
      let rr := if wroteHeader rr then rr
                else mkRecorder 200 (size rr) true true in
      mkRecorder (statusCode rr) (int_add (size rr) (Z.of_N n))
                 (wroteHeader rr) (stream rr)
  | DoElapse _ => rr
  end.

Definition record_actions (acts : list Action) (rr : responseRecorder)
    : responseRecorder :=
  foldl record_action rr acts.

(** Requests served one after the other, as the server does on one
    connection; a panic of one request ends that request only. *)
Definition serve_all `{!Sanitizers} (reqs : list (Request * Handler))
    (w : World) : World :=
  foldl (fun w rn => (ServeHTTP rn.1 rn.2 w).1) w reqs.

Definition returned (next : Handler) : bool :=
  match outcome next with
  | Returns _ => true
  | Panics => false
  end.

Definition failed (next : Handler) : bool :=
  match outcome next with
  | Returns (Some _) => true
  | _ => false
  end.

(** How many of the requests satisfy [p] and are for [host]. *)
Definition count_for (host : string) (p : Handler -> bool)
    (reqs : list (Request * Handler)) : Z :=
  Z.of_nat (List.length
              (List.filter (fun rn => bool_decide (Host rn.1 = host) && p rn.2)
                           reqs)).

Section TraceOfActions.
Context `{!Sanitizers}.

(** The observations of the hook for a handler that starts at clock
    reading [t0], and the code label the hook leaves behind: that of the
    last head it saw. *)
Definition head_events (start : Z) (h m : string) (t0 : Z) (acts : list Action)
    : list Event :=
  map (fun st => ttfb_event start h m st.1 (t0 + st.2)) (heads acts).

Definition code_after (c : string) (acts : list Action) : string :=
  match last (heads acts) with
  | Some st => SanitizeCode st.1
  | None => c
  end.

End TraceOfActions.

(** * Properties *)

(** ** Machine integers *)

Lemma wrap_in_range z : in_range z -> wrap z = z.
Proof.
  unfold in_range, wrap, min_int, max_int, int_bits. intros Hz.
  rewrite Z.mod_small; lia.
Qed.

Lemma wrap_add_l a b : wrap (wrap a + b) = wrap (a + b).
Proof.
  unfold wrap, int_bits. f_equal.
  replace ((a + 2 ^ (64 - 1)) mod 2 ^ 64 - 2 ^ (64 - 1) + b + 2 ^ (64 - 1))
    with ((a + 2 ^ (64 - 1)) mod 2 ^ 64 + b) by lia.
  rewrite Zplus_mod_idemp_l. f_equal. lia.
Qed.

Lemma int_add_wrap a b : int_add (wrap a) b = wrap (a + b).
Proof. apply wrap_add_l. Qed.

Lemma len_nonneg s : 0 <= len s.
Proof. unfold len. lia. Qed.

(** ** Label maps *)

Lemma label_values_basic h :
  label_values Registry.basicLabels {[ "host" := h ]} = Some [h].
Proof. reflexivity. Qed.

Lemma label_values_status h m c :
  label_values Registry.httpLabels (status_labels h m c) = Some [h; c; m].
Proof. reflexivity. Qed.

Lemma status_labels_set_code h m c c' :
  <["code" := c']> (status_labels h m c) = status_labels h m c'.
Proof.
  unfold status_labels. apply map_eq. intros k.
  destruct (decide (k = "code")) as [->|Hc]; [by simplify_map_eq|].
  rewrite lookup_insert_ne by done.
  destruct (decide (k = "host")) as [->|Hh]; [by simplify_map_eq|].
  destruct (decide (k = "method")) as [->|Hm]; by simplify_map_eq.
Qed.

Lemma map_index_status_code h m c : map_index (status_labels h m c) "code" = c.
Proof. reflexivity. Qed.

(** ** Size estimator *)

Section SizeEstimator.

Lemma foldl_values_wrap (values : list string) (s : Z) :
  foldl (fun s value => int_add s (len value)) (wrap s) values
  = wrap (s + foldr (fun value acc => len value + acc) 0 values).
Proof.
  revert s. induction values as [|v values IH]; intros s; simpl.
  - f_equal. lia.
  - rewrite int_add_wrap, IH. f_equal. lia.
Qed.

Lemma add_header_field_wrap (nv : string * list string) (s : Z) :
  add_header_field (wrap s) nv = wrap (s + field_bytes nv).
Proof.
  unfold add_header_field, field_bytes.
  rewrite int_add_wrap, foldl_values_wrap. f_equal. lia.
Qed.

Lemma foldl_fields_wrap (fields : list (string * list string)) (s : Z) :
  foldl add_header_field (wrap s) fields
  = wrap (s + foldr (fun nv acc => field_bytes nv + acc) 0 fields).
Proof.
  revert s. induction fields as [|nv fields IH]; intros s; simpl.
  - f_equal. lia.
  - rewrite add_header_field_wrap, IH. f_equal. lia.
Qed.

Lemma field_bytes_nonneg nv : 0 <= field_bytes nv.
Proof.
  unfold field_bytes. pose proof (len_nonneg nv.1).
  assert (0 <= foldr (fun value acc => len value + acc) 0 nv.2); [|lia].
  induction nv.2 as [|v l IH]; simpl; [lia|]. pose proof (len_nonneg v). lia.
Qed.

Lemma header_bytes_nonneg h : 0 <= header_bytes h.
Proof.
  unfold header_bytes. induction (map_to_list h) as [|nv l IH]; simpl; [lia|].
  pose proof (field_bytes_nonneg nv). lia.
Qed.

(** The estimator computes the unbounded sum reduced to [int]. *)
Lemma computeApproximateRequestSize_wrap r :
  computeApproximateRequestSize r = wrap (exact_size r).
Proof.
  unfold computeApproximateRequestSize, exact_size, header_bytes.
  assert (Hu : (match URL r with
                | Some u => int_add 0 (len u)
                | None => 0
                end) = wrap (from_option len 0 (URL r))).
  { destruct (URL r); simpl; [reflexivity|]. by rewrite wrap_in_range. }
  rewrite Hu, !int_add_wrap, foldl_fields_wrap, int_add_wrap.
  destruct (decide (ContentLength r = -1)) as [Hc|Hc].
  - rewrite (bool_decide_eq_false_2 (ContentLength r <> -1)) by tauto.
    rewrite (bool_decide_eq_true_2 _ Hc). f_equal. lia.
  - rewrite (bool_decide_eq_true_2 _ Hc), (bool_decide_eq_false_2 _ Hc).
    rewrite int_add_wrap. f_equal.
Qed.

End SizeEstimator.

(** C7 (as amended): for a request whose content-length is at least -1
    and whose component lengths, with a non-negative content-length, add
    up to at most the largest [int], the estimate is that sum and is
    non-negative: a content-length of -1 contributes zero, a non-negative
    one its value, and an absent URL, an empty string or an empty header
    map contributes zero. *)
Theorem computeApproximateRequestSize_nonneg (r : Request) :
  -1 <= ContentLength r ->
  from_option len 0 (URL r) + len (Method r) + len (Proto r)
    + header_bytes (Header r) + len (Host r)
    + (if bool_decide (ContentLength r = -1) then 0 else ContentLength r)
    <= max_int ->
  0 <= computeApproximateRequestSize r /\
  computeApproximateRequestSize r
  = from_option len 0 (URL r) + len (Method r) + len (Proto r)
    + header_bytes (Header r) + len (Host r)
    + (if bool_decide (ContentLength r = -1) then 0 else ContentLength r).
Proof.
  intros Hcl Hmax. rewrite computeApproximateRequestSize_wrap.
  fold (exact_size r) in Hmax |- *.
  assert (0 <= exact_size r).
  { unfold exact_size.
    pose proof (header_bytes_nonneg (Header r)).
    pose proof (len_nonneg (Method r)). pose proof (len_nonneg (Proto r)).
    pose proof (len_nonneg (Host r)).
    assert (0 <= from_option len 0 (URL r)).
    { destruct (URL r); simpl; [apply len_nonneg|lia]. }
    case_bool_decide; lia. }
  rewrite wrap_in_range; [lia|].
  unfold in_range, min_int, int_bits. lia.
Qed.

Lemma computeApproximateRequestSize_nonneg_witness :
  let r := mkRequest (Some "/upload") "POST" "HTTP/1.1"
             {[ "Accept" := ["text/html"; "*/*"] ]} "example.org" 120 in
  0 <= computeApproximateRequestSize r /\ computeApproximateRequestSize r = 168.
Proof.
  intros r.
  destruct (computeApproximateRequestSize_nonneg r) as [H0 H1];
    [vm_compute; discriminate | vm_compute; discriminate |].
  split; [exact H0 | rewrite H1; reflexivity].
Defined.

(** C7, as first stated, fails: a request that declares the largest
    content-length the server accepts makes the sum wrap around to a
    negative [int]. *)
Lemma computeApproximateRequestSize_negative :
  computeApproximateRequestSize
    (mkRequest (Some "/upload") "POST" "HTTP/1.1" ∅ "h" 9223372036854775807) < 0.
Proof. vm_compute. reflexivity. Qed.

(** C8: for method "GET", no headers, host "h", content-length -1 and
    target "/x" the estimate is the sum of the four lengths, with nothing
    added for the content-length (for any protocol string short enough
    for the sum to be an [int], as every Go string is). *)
Theorem computeApproximateRequestSize_get (proto : string) :
  len "/x" + len "GET" + len proto + len "h" <= max_int ->
  computeApproximateRequestSize (mkRequest (Some "/x") "GET" proto ∅ "h" (-1))
  = len "/x" + len "GET" + len proto + len "h".
Proof.
  intros Hmax.
  assert (Hh : header_bytes ∅ = 0).
  { unfold header_bytes. by rewrite map_to_list_empty. }
  destruct (computeApproximateRequestSize_nonneg
              (mkRequest (Some "/x") "GET" proto ∅ "h" (-1))) as [_ Heq];
    cbn [URL Method Proto Header Host ContentLength from_option] in *.
  - lia.
  - rewrite Hh, (bool_decide_eq_true_2 (-1 = -1)) by reflexivity. lia.
  - rewrite Heq, Hh, (bool_decide_eq_true_2 (-1 = -1)) by reflexivity. lia.
Qed.

Lemma computeApproximateRequestSize_get_witness :
  computeApproximateRequestSize (mkRequest (Some "/x") "GET" "HTTP/1.1" ∅ "h" (-1))
  = 2 + 3 + 8 + 1.
Proof.
  rewrite (computeApproximateRequestSize_get "HTTP/1.1"); [reflexivity|].
  vm_compute. discriminate.
Defined.

(** ** Metric registry *)

Section RegistryFacts.
Import Registry.

(** A membership that evaluates to false is absurd. *)
Ltac not_member Hin :=
  exfalso;
  refine (proj1 (bool_decide_eq_false _) _ Hin);
  vm_compute; reflexivity.

(** C9 (as amended): initialization registers all seven instruments:
    the gauge requests_in_flight, the counters request_errors_total and
    requests_total, and the histograms request_duration_seconds,
    request_size_bytes, response_size_bytes and
    response_duration_seconds, under distinct names with the fixed
    prefix caddy_http_extend_; the gauge and the counters are labelled
    by host, the histograms by host, code and method; the two duration
    histograms use the client's default second-scale buckets, and the
    two size histograms use eight buckets that start at 256 and grow by
    a factor of 4. *)
Theorem init_registers_seven :
  exists reg, Registry.init [] = Some reg /\
    List.length reg = 7%nat /\
    collectors reg
    = [ ("caddy_http_extend_requests_in_flight", "gauge", ["host"]);
        ("caddy_http_extend_request_errors_total", "counter", ["host"]);
        ("caddy_http_extend_requests_total", "counter", ["host"]);
        ("caddy_http_extend_request_duration_seconds", "histogram",
         ["host"; "code"; "method"]);
        ("caddy_http_extend_request_size_bytes", "histogram",
         ["host"; "code"; "method"]);
        ("caddy_http_extend_response_size_bytes", "histogram",
         ["host"; "code"; "method"]);
        ("caddy_http_extend_response_duration_seconds", "histogram",
         ["host"; "code"; "method"]) ] /\
    well_registered reg.
Proof.
  eexists. split; [vm_compute; reflexivity|].
  split; [reflexivity|]. split; [reflexivity|].
  unfold well_registered. repeat split.
  - apply (bool_decide_unpack _). vm_compute. exact I.
  - repeat (apply Forall_cons; split; [reflexivity|]). apply Forall_nil. done.
  - repeat (apply Forall_cons; split; [reflexivity|]). apply Forall_nil. done.
  - repeat (apply Forall_cons; split;
              [intros Hin; first [reflexivity | not_member Hin]|]).
    apply Forall_nil. done.
  - repeat (apply Forall_cons; split;
              [intros Hin;
               first [by (repeat split; reflexivity) | not_member Hin]|]).
    apply Forall_nil. done.
Qed.

(** C9, as first stated, fails: the instruments registered are seven,
    not six. *)
Lemma init_registers_not_six :
  ~ exists reg, Registry.init [] = Some reg /\ List.length reg = 6%nat.
Proof.
  intros [reg [Hinit Hlen]].
  vm_compute in Hinit. injection Hinit as <-. discriminate Hlen.
Qed.

End RegistryFacts.

(** ** The monad and the world *)

(** Unfold the monad's operations, leaving the commands in place. *)
Ltac go := cbv beta iota delta [mret M_ret ret mbind M_bind bind].

Lemma advance_0_nil w : advance w 0 [] = w.
Proof.
  destruct w as [t m l]. unfold advance. simpl.
  by rewrite Z.add_0_r, app_nil_r.
Qed.

Lemma advance_advance w d1 e1 d2 e2 :
  advance (advance w d1 e1) d2 e2 = advance w (d1 + d2) (e1 ++ e2).
Proof.
  unfold advance. simpl. by rewrite Z.add_assoc, foldl_app, app_assoc.
Qed.

Lemma emit_eq e w : emit e w = (advance w 0 [e], Ok tt).
Proof. unfold emit, advance. simpl. by rewrite Z.add_0_r. Qed.

Lemma elapse_eq d w : elapse d w = (advance w (Z.of_N d) [], Ok tt).
Proof. unfold elapse, advance. simpl. by rewrite app_nil_r. Qed.

Lemma With_basic h w :
  With Registry.basicLabels {[ "host" := h ]} w = (w, Ok [h]).
Proof. unfold With. by rewrite label_values_basic. Qed.

Lemma With_status h m c w :
  With Registry.httpLabels (status_labels h m c) w = (w, Ok [h; c; m]).
Proof. unfold With. by rewrite label_values_status. Qed.

Lemma subMono_mono t1 t2 u : t1 <= t2 -> subMono t1 u <= subMono t2 u.
Proof. unfold subMono. lia. Qed.

(** ** The metric store follows the events *)

Section Store.

Lemma value_of_insert (g : gmap (list string) Z) l x lvs :
  value_of (<[l := x]> g) lvs = if bool_decide (l = lvs) then x else value_of g lvs.
Proof.
  unfold value_of. case_bool_decide as Hl.
  - subst. by rewrite lookup_insert_eq.
  - by rewrite lookup_insert_ne.
Qed.

Lemma observations_of_insert (g : gmap (list string) (list float64)) l x lvs :
  observations_of (<[l := x]> g) lvs
  = if bool_decide (l = lvs) then x else observations_of g lvs.
Proof.
  unfold observations_of. case_bool_decide as Hl.
  - subst. by rewrite lookup_insert_eq.
  - by rewrite lookup_insert_ne.
Qed.

Lemma gauge_apply_event m e lvs :
  value_of (requestInFlight (apply_event m e)) lvs
  = value_of (requestInFlight m) lvs + gauge_delta lvs e.
Proof.
  destruct e as [l|l|c l|h l v| | |]; cbn [apply_event gauge_delta];
    try (cbn; lia).
  - cbn [set_requestInFlight requestInFlight]. rewrite value_of_insert.
    case_bool_decide; subst; lia.
  - cbn [set_requestInFlight requestInFlight]. rewrite value_of_insert.
    case_bool_decide; subst; lia.
  - destruct c; cbn; lia.
  - destruct h; cbn; lia.
Qed.

Lemma counter_apply_event c m e lvs :
  value_of (counterVec c (apply_event m e)) lvs
  = value_of (counterVec c m) lvs + counter_delta c lvs e.
Proof.
  destruct e as [l|l|c' l|h l v| | |]; cbn [apply_event counter_delta];
    try (destruct c; cbn; lia).
  - destruct c, c'; cbn [set_counterVec counterVec requestCount requestErrors];
      rewrite ?value_of_insert;
      repeat case_bool_decide;
      first [lia | by (intuition subst) | exfalso; intuition congruence].
  - destruct c, h; cbn; lia.
Qed.

Lemma histogram_apply_event h m e lvs :
  observations_of (histogramVec h (apply_event m e)) lvs
  = (observations_of (histogramVec h m) lvs ++ observed h lvs e)%list.
Proof.
  destruct e as [l|l|c l|h' l v| | |]; cbn [apply_event observed];
    try (destruct h; cbn; by rewrite app_nil_r).
  - destruct h, c; cbn; by rewrite app_nil_r.
  - destruct h, h';
      cbn [set_histogramVec histogramVec requestDuration requestSize
             responseSize responseDuration];
      rewrite ?observations_of_insert;
      repeat case_bool_decide; rewrite ?app_nil_r;
      first [reflexivity
            | by (intuition subst)
            | exfalso; intuition congruence].
Qed.

Lemma gauge_foldl evs : forall m lvs,
  value_of (requestInFlight (foldl apply_event m evs)) lvs
  = value_of (requestInFlight m) lvs + gauge_total lvs evs.
Proof.
  induction evs as [|e evs IH]; intros m lvs; cbn [foldl gauge_total foldr].
  - lia.
  - rewrite IH, gauge_apply_event. unfold gauge_total. lia.
Qed.

Lemma counter_foldl c evs : forall m lvs,
  value_of (counterVec c (foldl apply_event m evs)) lvs
  = value_of (counterVec c m) lvs + counter_total c lvs evs.
Proof.
  induction evs as [|e evs IH]; intros m lvs; cbn [foldl counter_total foldr].
  - lia.
  - rewrite IH, counter_apply_event. unfold counter_total. lia.
Qed.

Lemma histogram_foldl h evs : forall m lvs,
  observations_of (histogramVec h (foldl apply_event m evs)) lvs
  = (observations_of (histogramVec h m) lvs ++ all_observed h lvs evs)%list.
Proof.
  induction evs as [|e evs IH]; intros m lvs; cbn [foldl all_observed foldr].
  - by rewrite app_nil_r.
  - rewrite IH, histogram_apply_event. unfold all_observed.
    by rewrite <- app_assoc.
Qed.

Lemma gauge_total_app lvs e1 e2 :
  gauge_total lvs (e1 ++ e2) = gauge_total lvs e1 + gauge_total lvs e2.
Proof.
  unfold gauge_total. induction e1 as [|e e1 IH]; cbn [app foldr]; lia.
Qed.

Lemma counter_total_app c lvs e1 e2 :
  counter_total c lvs (e1 ++ e2)
  = counter_total c lvs e1 + counter_total c lvs e2.
Proof.
  unfold counter_total. induction e1 as [|e e1 IH]; cbn [app foldr]; lia.
Qed.

Lemma all_observed_app h lvs e1 e2 :
  all_observed h lvs (e1 ++ e2)
  = (all_observed h lvs e1 ++ all_observed h lvs e2)%list.
Proof.
  unfold all_observed. induction e1 as [|e e1 IH]; cbn [app foldr].
  - reflexivity.
  - by rewrite IH, app_assoc.
Qed.

End Store.

(** ** Delegation to the next handler *)

(** Two descriptions of one world agree: the clocks by arithmetic, the
    event lists by the bracketing of [++]. *)
Ltac close_world :=
  rewrite ?Z.add_0_l, ?Z.add_0_r;
  f_equal; f_equal;
  first [lia | cbn [app]; rewrite <- ?app_assoc; reflexivity].

Section Heads.

Lemma last_cons_heads (x : Z * Z) (l : list (Z * Z)) :
  last (x :: l) = Some (default x (last l)).
Proof.
  revert x. induction l as [|y l IH]; intros x; [reflexivity|].
  change (last (x :: y :: l)) with (last (y :: l)). rewrite IH.
  by destruct l.
Qed.

Lemma last_map {A B} (f : A -> B) (l : list A) :
  last (map f l) = option_map f (last l).
Proof.
  induction l as [|x [|y l] IH]; [reflexivity..|].
  change (last (map f (x :: y :: l))) with (last (map f (y :: l))).
  rewrite IH. reflexivity.
Qed.

Lemma heads_emits acts :
  existsb emits_head acts
  = match heads acts with [] => false | _ => true end.
Proof.
  induction acts as [|[status|n|d] acts IH]; cbn [existsb emits_head heads orb];
    try reflexivity.
  rewrite IH. by destruct (heads acts).
Qed.

Lemma no_head_no_heads acts : existsb emits_head acts = false -> heads acts = [].
Proof. rewrite heads_emits. by destruct (heads acts). Qed.

Lemma elapsed_nonneg acts : 0 <= elapsed acts.
Proof.
  unfold elapsed. induction acts as [|[status|n|d] acts IH]; cbn [foldr]; lia.
Qed.

(** Every head is written while the handler runs. *)
Lemma heads_time acts :
  Forall (fun st : Z * Z => 0 <= st.2 <= elapsed acts) (heads acts).
Proof.
  unfold elapsed.
  induction acts as [|[status|n|d] acts IH]; cbn [heads foldr].
  - constructor.
  - pose proof (elapsed_nonneg acts) as Hn. unfold elapsed in Hn.
    constructor; [cbn; lia|]. destruct (informational status); [done|constructor].
  - pose proof (elapsed_nonneg acts) as Hn. unfold elapsed in Hn.
    constructor; [cbn; lia|constructor].
  - rewrite Forall_map. eapply Forall_impl; [exact IH|].
    intros [s t] Ht. cbn in *. lia.
Qed.

(** All heads but the last are informational. *)
Lemma heads_final_once acts :
  (List.length (List.filter (fun st : Z * Z => negb (informational st.1))
                            (heads acts)) <= 1)%nat.
Proof.
  induction acts as [|[status|n|d] acts IH]; cbn [heads List.filter List.length].
  - lia.
  - cbn [fst]. destruct (informational status);
      cbn [negb List.filter List.length]; [exact IH|lia].
  - cbn. lia.
  - assert (Hmap : forall l : list (Z * Z),
               List.filter (fun st : Z * Z => negb (informational st.1))
                 (map (fun st : Z * Z => (st.1, Z.of_N d + st.2)) l)
               = map (fun st : Z * Z => (st.1, Z.of_N d + st.2))
                   (List.filter (fun st : Z * Z => negb (informational st.1)) l)).
    { induction l as [|[s t] l IHl]; [reflexivity|]. cbn [map List.filter fst].
      destruct (negb (informational s)); cbn [map]; by rewrite IHl. }
    rewrite Hmap, length_map. exact IH.
Qed.

(** The hook is called at most once more than there are informational
    [WriteHeader] calls. *)
Lemma heads_length acts :
  (List.length (heads acts) <= 1 + informational_heads acts)%nat.
Proof.
  unfold informational_heads.
  induction acts as [|[status|n|d] acts IH]; cbn [heads List.filter List.length].
  - lia.
  - destruct (informational status); cbn [List.length]; lia.
  - lia.
  - by rewrite length_map.
Qed.

Lemma no_heads_no_bytes acts : heads acts = [] -> bytes_written acts = 0.
Proof.
  unfold bytes_written.
  induction acts as [|[status|n|d] acts IH]; cbn [heads foldr]; try done.
  intros Hmap. apply IH. by destruct (heads acts).
Qed.

(** Writes come with or after the final head. *)
Lemma informational_last_no_bytes acts st :
  last (heads acts) = Some st -> informational st.1 = true ->
  bytes_written acts = 0.
Proof.
  unfold bytes_written. revert st.
  induction acts as [|[status|n|d] acts IH]; intros st; cbn [heads foldr].
  - discriminate.
  - destruct (informational status) eqn:Hinf.
    + rewrite last_cons_heads. intros [= <-] Hst.
      destruct (last (heads acts)) as [st'|] eqn:Hlast.
      * by apply (IH st').
      * apply no_heads_no_bytes. by apply last_None.
    + intros [= <-]. cbn [fst]. by rewrite Hinf.
  - intros [= <-]. discriminate.
  - rewrite last_map. destruct (last (heads acts)) as [st'|]; [|discriminate].
    intros [= <-] Hst. by apply (IH st').
Qed.

End Heads.

Section Run.
Context `{!Sanitizers}.

Lemma writeHeaderRecorder_eq start h m c status w :
  writeHeaderRecorder start status (status_labels h m c) w
  = (advance w 0 [ttfb_event start h m status (now w)],
     Ok (status_labels h m (SanitizeCode status), false)).
Proof.
  unfold writeHeaderRecorder. rewrite status_labels_set_code.
  unfold Histogram_Observe, time_Since. go.
  rewrite With_status. go. rewrite emit_eq. reflexivity.
Qed.

Lemma observeRequest_eq r dur wrec status h m c w :
  observeRequest r dur wrec status (status_labels h m c) w
  = (advance w 0 (finalization r h m (final_code c status) dur wrec),
     Ok (status_labels h m (final_code c status))).
Proof.
  unfold observeRequest. rewrite map_index_status_code.
  assert (Hl : (if bool_decide (c = "")
                then <["code" := SanitizeCode status]> (status_labels h m c)
                else status_labels h m c)
               = status_labels h m (final_code c status)).
  { unfold final_code. case_bool_decide; [apply status_labels_set_code|done]. }
  rewrite Hl. unfold Histogram_Observe. go.
  repeat (rewrite ?With_status, ?emit_eq; go).
  rewrite !advance_advance. reflexivity.
Qed.

(** Once the final head is written, the hook is out of the picture. *)
Lemma run_actions_after_head start h m acts :
  forall c rr w,
    wroteHeader rr = true ->
    run_actions (writeHeaderRecorder start) acts (status_labels h m c) rr w
    = (advance w (elapsed acts) [],
       Ok (status_labels h m c, record_actions acts rr)).
Proof.
  unfold elapsed, record_actions.
  induction acts as [|a acts IH]; intros c rr w Hw; cbn [run_actions foldr foldl].
  - go. by rewrite advance_0_nil.
  - destruct a as [status|n|d]; cbn [run_action record_action].
    + unfold WriteHeader. rewrite Hw. go. by rewrite IH.
    + unfold Write, WriteHeader. rewrite Hw. go. rewrite IH by done.
      by rewrite Hw.
    + go. rewrite elapse_eq. go. rewrite IH by done.
      by rewrite advance_advance.
Qed.

Lemma code_after_cons status c acts :
  code_after c (DoWriteHeader status :: acts)
  = if informational status then code_after (SanitizeCode status) acts
    else SanitizeCode status.
Proof.
  unfold code_after. cbn [heads]. rewrite last_cons_heads.
  destruct (informational status); [|reflexivity].
  by destruct (last (heads acts)).
Qed.

Lemma code_after_elapse d c acts :
  code_after c (DoElapse d :: acts) = code_after c acts.
Proof.
  unfold code_after. cbn [heads]. rewrite last_map.
  by destruct (last (heads acts)).
Qed.

Lemma head_events_elapse start h m t0 d acts :
  head_events start h m t0 (DoElapse d :: acts)
  = head_events start h m (t0 + Z.of_N d) acts.
Proof.
  unfold head_events. cbn [heads]. rewrite map_map.
  apply map_ext. intros [s t]. cbn [fst snd]. by rewrite Z.add_assoc.
Qed.

(** The run of a handler's actions from a recorder without final head:
    the hook observes each head of [heads], in order. *)
Lemma run_actions_exact start h m acts :
  forall c rr w,
    wroteHeader rr = false ->
    run_actions (writeHeaderRecorder start) acts (status_labels h m c) rr w
    = (advance w (elapsed acts) (head_events start h m (now w) acts),
       Ok (status_labels h m (code_after c acts), record_actions acts rr)).
Proof.
  induction acts as [|a acts IH]; intros c rr w Hw.
  - cbn. go. by rewrite advance_0_nil.
  - cbn [run_actions]. destruct a as [status|n|d]; cbn [run_action].
    + unfold WriteHeader. rewrite Hw. go. rewrite writeHeaderRecorder_eq. go.
      rewrite code_after_cons.
      unfold head_events, elapsed, record_actions.
      cbn [heads map foldr foldl record_action fst snd]. rewrite Hw.
      destruct (informational status) eqn:Hinf; cbn [negb].
      * rewrite IH by reflexivity. rewrite advance_advance.
        cbn [now advance]. rewrite !Z.add_0_r. reflexivity.
      * rewrite run_actions_after_head by reflexivity.
        rewrite advance_advance. rewrite !Z.add_0_r. reflexivity.
    + unfold Write, WriteHeader. rewrite Hw. go.
      rewrite writeHeaderRecorder_eq. go.
      rewrite run_actions_after_head by done.
      rewrite advance_advance, Z.add_0_l, app_nil_r.
      unfold head_events, code_after, elapsed, record_actions.
      cbn [heads map last foldr foldl record_action fst snd].
      rewrite Hw, Z.add_0_r. reflexivity.
    + go. rewrite elapse_eq. go. rewrite IH by done.
      rewrite advance_advance, code_after_elapse, head_events_elapse.
      cbn [now advance].
      unfold elapsed, record_actions. cbn [foldr foldl record_action app].
      reflexivity.
Qed.

End Run.

(** ** The request instrumentor *)

Section Serve.
Context `{!Sanitizers}.

(** One run of [ServeHTTP] in closed form. *)
Lemma ServeHTTP_exact (r : Request) (next : Handler) (w : World) :
  let h := Host r in
  let m := SanitizeMethod (Method r) in
  let acts := actions next in
  ServeHTTP r next w
  = (advance w (elapsed acts)
       (request_events r (outcome next)
          (head_events (now w) h m (now w) acts)
          (code_after "0" acts)
          (subMono (now w + elapsed acts) (now w))
          (record_actions acts NewResponseRecorder)),
     request_result (outcome next)).
Proof.
  cbv zeta.
  unfold ServeHTTP, defer, next_ServeHTTP, Gauge_Inc, Gauge_Dec, Counter_Inc,
    time_Now, time_Since.
  fold (status_labels (Host r) (SanitizeMethod (Method r)) "0").
  go. rewrite With_basic. go. rewrite !emit_eq. go.
  rewrite advance_advance.
  replace (now (advance w 0 [EvGaugeInc [Host r]])) with (now w)
    by (cbn [now advance]; lia).
  rewrite run_actions_exact by reflexivity.
  replace (now (advance w (0 + 0) ([EvGaugeInc [Host r]] ++ [EvNextCall])))
    with (now w) by (cbn [now advance]; lia).
  go. unfold request_events, request_result, after_return.
  destruct (outcome next) as [[e|]|].
  - rewrite emit_eq. go. rewrite With_basic. go. rewrite emit_eq. go.
    destruct (errors_As e) as [sc|].
    + rewrite observeRequest_eq. go. rewrite With_basic. go.
      rewrite !emit_eq, !advance_advance. cbn [now advance].
      close_world.
    + rewrite With_basic. go.
      rewrite !emit_eq, !advance_advance. cbn [now advance].
      close_world.
  - rewrite emit_eq. go. rewrite With_basic. go. rewrite emit_eq. go.
    rewrite observeRequest_eq. go.
    rewrite !emit_eq, !advance_advance. cbn [now advance].
    close_world.
  - rewrite emit_eq. unfold panic. go.
    rewrite !emit_eq, !advance_advance. cbn [now advance].
    close_world.
Qed.

End Serve.

(** ** The recorder after the handler *)

Section RecorderFacts.

Lemma record_actions_after_head acts :
  forall rr,
    wroteHeader rr = true ->
    record_actions acts rr
    = mkRecorder (statusCode rr)
                 (foldl (fun s a => match a with
                                    | DoWrite n => int_add s (Z.of_N n)
                                    | _ => s
                                    end) (size rr) acts)
                 true (stream rr).
Proof.
  unfold record_actions.
  induction acts as [|[status|n|d] acts IH]; intros rr Hw;
    cbn [foldl record_action].
  - destruct rr; cbn in *; by subst.
  - rewrite Hw. by apply IH.
  - rewrite Hw. rewrite IH by done. reflexivity.
  - by apply IH.
Qed.

Lemma foldl_writes_wrap acts :
  forall s,
    foldl (fun s a => match a with
                      | DoWrite n => int_add s (Z.of_N n)
                      | _ => s
                      end) (wrap s) acts
    = wrap (s + bytes_written acts).
Proof.
  unfold bytes_written.
  induction acts as [|[status|n|d] acts IH]; intros s; cbn [foldl foldr].
  - f_equal. lia.
  - apply IH.
  - rewrite int_add_wrap, IH. f_equal. lia.
  - apply IH.
Qed.

Lemma record_actions_no_final acts :
  forall rr s0,
    wroteHeader rr = false ->
    size rr = wrap s0 ->
    record_actions acts rr
    = match last (heads acts) with
      | Some st => mkRecorder st.1 (wrap (s0 + bytes_written acts))
                              (negb (informational st.1)) true
      | None => rr
      end.
Proof.
  pose proof record_actions_after_head as Hafter.
  unfold record_actions in *.
  induction acts as [|[status|n|d] acts IH]; intros rr s0 Hw Hsize;
    cbn [foldl record_action heads].
  - reflexivity.
  - rewrite Hw, last_cons_heads.
    change (bytes_written (DoWriteHeader status :: acts))
      with (bytes_written acts).
    destruct (informational status) eqn:Hinf; cbn [negb].
    + rewrite (IH _ s0) by done.
      destruct (last (heads acts)) as [st|] eqn:Hlast; cbn [default fst].
      * reflexivity.
      * apply last_None in Hlast. rewrite (no_heads_no_bytes _ Hlast).
        rewrite Hinf, Z.add_0_r, <- Hsize. reflexivity.
    + rewrite Hafter by reflexivity.
      cbn [statusCode size stream last default fst].
      rewrite Hsize, foldl_writes_wrap, Hinf. reflexivity.
  - rewrite Hw. cbn [last fst statusCode size wroteHeader stream].
    rewrite Hafter by reflexivity.
    cbn [statusCode size stream].
    rewrite Hsize, int_add_wrap, foldl_writes_wrap.
    unfold bytes_written. cbn [foldr]. do 2 f_equal. lia.
  - rewrite (IH _ s0) by done.
    rewrite last_map.
    change (bytes_written (DoElapse d :: acts)) with (bytes_written acts).
    by destruct (last (heads acts)) as [[s t]|].
Qed.

(** The recorder of a whole run: the status of the last head the hook
    saw, the bytes written, and whether the final head was written. *)
Lemma record_actions_new acts :
  record_actions acts NewResponseRecorder
  = match last (heads acts) with
    | Some st => mkRecorder st.1 (wrap (bytes_written acts))
                            (negb (informational st.1)) true
    | None => NewResponseRecorder
    end.
Proof.
  rewrite (record_actions_no_final acts NewResponseRecorder 0) by reflexivity.
  by rewrite Z.add_0_l.
Qed.

End RecorderFacts.

(** ** The events of the hook *)

Section HeadEvents.
Context `{!Sanitizers}.

Lemma ttfb_only_gauge lvs evs :
  forallb is_ttfb_event evs = true -> gauge_total lvs evs = 0.
Proof.
  unfold gauge_total.
  induction evs as [|[l|l|c l|[] l v| | |] evs IH]; cbn [forallb is_ttfb_event foldr andb];
    try discriminate; [done|].
  intros Hevs. rewrite (IH Hevs). reflexivity.
Qed.

Lemma ttfb_only_counter c lvs evs :
  forallb is_ttfb_event evs = true -> counter_total c lvs evs = 0.
Proof.
  unfold counter_total.
  induction evs as [|[l|l|c' l|[] l v| | |] evs IH]; cbn [forallb is_ttfb_event foldr andb];
    try discriminate; [done|].
  intros Hevs. rewrite (IH Hevs). reflexivity.
Qed.

Lemma ttfb_only_observed h lvs evs :
  h <> ResponseDuration ->
  forallb is_ttfb_event evs = true -> all_observed h lvs evs = [].
Proof.
  intros Hh. unfold all_observed.
  induction evs as [|[l|l|c' l|[] l v| | |] evs IH]; cbn [forallb is_ttfb_event foldr andb];
    try discriminate; [done|].
  intros Hevs. rewrite (IH Hevs). cbn [observed].
  rewrite bool_decide_eq_false_2; [reflexivity|]. intros [<- _]. by apply Hh.
Qed.

Lemma ttfb_only_weaken (P : Event -> bool) evs :
  (forall h lvs v, is_ttfb_event (EvObserve h lvs v) = true ->
                   P (EvObserve h lvs v) = true) ->
  forallb is_ttfb_event evs = true -> forallb P evs = true.
Proof.
  intros HP.
  induction evs as [|[l|l|c' l|h l v| | |] evs IH]; cbn [forallb is_ttfb_event andb];
    try discriminate; [done|].
  intros Hevs. apply andb_true_iff in Hevs as [He Hevs].
  by rewrite (HP _ _ _ He), (IH Hevs).
Qed.

Lemma ttfb_only_filter evs :
  forallb is_ttfb_event evs = true -> List.filter is_ttfb_event evs = evs.
Proof.
  induction evs as [|e evs IH]; cbn [forallb List.filter]; [done|].
  intros Hevs. apply andb_true_iff in Hevs as [-> Hevs]. by rewrite (IH Hevs).
Qed.

Lemma head_events_ttfb start h m t0 acts :
  forallb is_ttfb_event (head_events start h m t0 acts) = true.
Proof.
  unfold head_events. induction (heads acts) as [|st l IH]; [done|].
  cbn [map forallb]. by rewrite IH.
Qed.

Lemma gauge_total_head lvs start h m t0 acts :
  gauge_total lvs (head_events start h m t0 acts) = 0.
Proof. apply ttfb_only_gauge, head_events_ttfb. Qed.

Lemma counter_total_head c lvs start h m t0 acts :
  counter_total c lvs (head_events start h m t0 acts) = 0.
Proof. apply ttfb_only_counter, head_events_ttfb. Qed.

Lemma all_observed_head_duration lvs start h m t0 acts :
  all_observed RequestDuration lvs (head_events start h m t0 acts) = [].
Proof. by apply ttfb_only_observed, head_events_ttfb. Qed.

Lemma all_observed_head_request lvs start h m t0 acts :
  all_observed RequestSize lvs (head_events start h m t0 acts) = [].
Proof. by apply ttfb_only_observed, head_events_ttfb. Qed.

Lemma all_observed_head_response lvs start h m t0 acts :
  all_observed ResponseSize lvs (head_events start h m t0 acts) = [].
Proof. by apply ttfb_only_observed, head_events_ttfb. Qed.

(** What the hook adds to a series of the time-to-first-byte histogram. *)
Lemma all_observed_head_ttfb lvs t0 h m acts :
  all_observed ResponseDuration lvs (head_events t0 h m t0 acts)
  = flat_map (fun st : Z * Z =>
                if bool_decide (lvs = [h; SanitizeCode st.1; m])
                then [Seconds (Z.min maxDuration st.2)] else [])
             (heads acts).
Proof.
  unfold head_events, all_observed, ttfb_event.
  pose proof (heads_time acts) as Htime.
  induction Htime as [|st l Hst _ IH]; [reflexivity|].
  cbn [map foldr flat_map observed]. rewrite IH. f_equal.
  replace (subMono (t0 + st.2) t0) with (Z.min maxDuration st.2)
    by (unfold subMono, minDuration, maxDuration; lia).
  repeat case_bool_decide; first [reflexivity | exfalso; intuition congruence].
Qed.

(** A handler that writes no head leaves the hook unused. *)
Lemma no_head_run start h m t0 c acts :
  existsb emits_head acts = false ->
  head_events start h m t0 acts = [] /\
  code_after c acts = c /\
  record_actions acts NewResponseRecorder = NewResponseRecorder.
Proof.
  intros Hnone. apply no_head_no_heads in Hnone.
  rewrite record_actions_new. unfold head_events, code_after.
  by rewrite Hnone.
Qed.

End HeadEvents.

Lemma subMono_elapsed t e : 0 <= e -> subMono (t + e) t = Z.min maxDuration e.
Proof. unfold subMono, minDuration, maxDuration. lia. Qed.

Lemma final_code_same `{!Sanitizers} status :
  final_code (SanitizeCode status) status = SanitizeCode status.
Proof. unfold final_code. by case_bool_decide. Qed.

(** ** Properties of [ServeHTTP] *)

(** Replace a run of [ServeHTTP] by its closed form, and read the store
    and the log of the world it ends in. *)
Ltac exact_request :=
  cbv zeta; rewrite ?ServeHTTP_exact;
  cbn [fst snd httpMetrics log now advance].

(** The ways the call of the next handler can end. *)
Ltac outcome_cases next :=
  let e := fresh "e" in
  destruct (outcome next) as [[e|]|];
  [ destruct (errors_As e) eqn:? | | ].

(** Evaluate the totals of the events of a request; the hook's events
    count for the time-to-first-byte histogram only. *)
Ltac totals :=
  unfold request_events, after_return, finalization;
  try match goal with H : errors_As _ = _ |- _ => rewrite H end;
  rewrite ?gauge_total_app, ?counter_total_app, ?all_observed_app;
  rewrite ?gauge_total_head, ?counter_total_head,
    ?all_observed_head_duration, ?all_observed_head_request,
    ?all_observed_head_response, ?all_observed_head_ttfb;
  cbn [gauge_total counter_total all_observed foldr app
       gauge_delta counter_delta observed].

(** A series to which the events add no observation is unchanged. *)
Ltac nothing_observed :=
  match goal with
  | |- (_ ++ ?added)%list = _ =>
      let Hnone := fresh "Hnone" in
      assert (Hnone : added = []); [|by rewrite Hnone, app_nil_r]
  end.

(** A total that is to be shown zero. *)
Ltac nothing_added :=
  match goal with
  | |- _ + ?total = _ =>
      let Hz := fresh "Hz" in
      assert (Hz : total = 0); [|lia]
  end.

Ltac decide_series :=
  repeat case_bool_decide;
  first [ reflexivity | lia
        | exfalso; intuition congruence ].

(** The code label of finalization, once the recorder is known. *)
Ltac settle_code :=
  cbn [Status statusCode Size size fst snd];
  rewrite ?final_code_same; unfold final_code.

(** C2: whatever the next handler does (it returns nil, an error with or
    without a status code, or panics), every in-flight series has after
    the request the value it had before it; the increment is the first
    event of the request and comes before the call of the next handler,
    the decrement is the last event and comes after the end of that
    call, and no other gauge operation happens in between. *)
Theorem in_flight_gauge_restored `{!Sanitizers}
    (r : Request) (next : Handler) (w : World) :
  let w' := (ServeHTTP r next w).1 in
  (forall lvs,
     value_of (requestInFlight (httpMetrics w')) lvs
     = value_of (requestInFlight (httpMetrics w)) lvs) /\
  exists during after,
    log w' = (log w ++ [EvGaugeInc [Host r]; EvNextCall] ++ during
                ++ [end_event (outcome next)] ++ after
                ++ [EvGaugeDec [Host r]])%list /\
    forallb (fun e => negb (is_gauge_event e) && negb (is_delegation_event e))
            (during ++ after) = true.
Proof.
  exact_request. split.
  - intros lvs. rewrite gauge_foldl. nothing_added.
    outcome_cases next; totals; repeat case_bool_decide; lia.
  - exists (head_events (now w) (Host r) (SanitizeMethod (Method r)) (now w)
              (actions next)).
    exists (match outcome next with
            | Returns err =>
                EvCounterInc RequestCount [Host r]
                :: after_return r (code_after "0" (actions next))
                     (subMono (now w + elapsed (actions next)) (now w))
                     (record_actions (actions next) NewResponseRecorder) err
            | Panics => []
            end).
    split.
    + unfold request_events. f_equal.
      destruct (outcome next); cbn [end_event app];
        rewrite <- ?app_assoc; reflexivity.
    + rewrite forallb_app.
      rewrite (ttfb_only_weaken _ _ (fun _ _ _ _ => eq_refl)
                 (head_events_ttfb _ _ _ _ _)).
      unfold after_return.
      outcome_cases next;
        try match goal with H : errors_As _ = _ |- _ => rewrite H end;
        reflexivity.
Qed.

(** C3: when the next handler returns, with an error or without, the
    request counter of the host grows by exactly one and no other series
    of it changes; the increment is the event right after the return of
    the next handler, and no counter increment and no finalization
    observation comes before it. *)
Theorem request_counter_incremented `{!Sanitizers}
    (r : Request) (next : Handler) (w : World) (err : option error) :
  outcome next = Returns err ->
  let w' := (ServeHTTP r next w).1 in
  (forall lvs,
     value_of (requestCount (httpMetrics w')) lvs
     = value_of (requestCount (httpMetrics w)) lvs
       + (if bool_decide (lvs = [Host r]) then 1 else 0)) /\
  exists before after,
    log w' = (log w ++ before
                ++ [EvNextReturn err; EvCounterInc RequestCount [Host r]]
                ++ after)%list /\
    forallb (fun e => negb (is_completion_event e)) before = true /\
    forallb (fun e => negb (is_delegation_event e)) after = true.
Proof.
  intros Hout. exact_request. rewrite Hout. split.
  - intros lvs. rewrite (counter_foldl RequestCount). cbn [counterVec].
    f_equal.
    destruct err as [e|]; try destruct (errors_As e) eqn:?;
      totals; repeat case_bool_decide;
      first [lia | exfalso; intuition congruence].
  - exists ([EvGaugeInc [Host r]; EvNextCall]
            ++ head_events (now w) (Host r) (SanitizeMethod (Method r)) (now w)
                 (actions next))%list.
    exists (after_return r (code_after "0" (actions next))
              (subMono (now w + elapsed (actions next)) (now w))
              (record_actions (actions next) NewResponseRecorder) err
              ++ [EvGaugeDec [Host r]])%list.
    split; [|split].
    + unfold request_events. by rewrite <- !app_assoc.
    + cbn [app forallb is_completion_event negb andb].
      apply ttfb_only_weaken; [|apply head_events_ttfb].
      by intros [] ? ?.
    + unfold after_return.
      destruct err as [e|]; try destruct (errors_As e); reflexivity.
Qed.

Lemma request_counter_incremented_witness :
  let r := mkRequest (Some "/x") "GET" "HTTP/1.1" ∅ "h" (-1) in
  let next := mkHandler [DoElapse 5; DoWriteHeader 204; DoElapse 3] (Returns None) in
  let w' := (@ServeHTTP sampleSanitizers r next emptyWorld).1 in
  value_of (requestCount (httpMetrics w')) ["h"] = 1 /\
  exists before after,
    log w' = (before ++ [EvNextReturn None; EvCounterInc RequestCount ["h"]]
                ++ after)%list.
Proof.
  intros r next w'.
  destruct (@request_counter_incremented sampleSanitizers r next emptyWorld None
              eq_refl) as [Hv (before & after & Hlog & _)].
  split.
  - unfold w'. rewrite (Hv ["h"]). reflexivity.
  - exists before, after. exact Hlog.
Defined.

(** C4, the behaviour of the code: when the next handler returns an
    error from which a handler error with a status code can be
    extracted, each of the request duration, request size and response
    size histograms receives exactly one observation, all three in the
    series {host, code, method} with the request's host and sanitized
    method; the error counter of the host grows by one and the error
    returned is the one the next handler returned.  The code of the
    series is not that of the error's status: it is the "0" the label
    was initialised with when the handler wrote no head, and the code of
    the last head the hook saw otherwise; the error's status is used
    only when the hook left the empty string. *)
Theorem error_with_status_observed `{!Sanitizers}
    (r : Request) (next : Handler) (w : World) (e : error) (sc : Z) :
  outcome next = Returns (Some e) ->
  errors_As e = Some sc ->
  let w' := (ServeHTTP r next w).1 in
  let code := match last (heads (actions next)) with
              | None => "0"
              | Some st => if bool_decide (SanitizeCode st.1 = "")
                           then SanitizeCode sc
                           else SanitizeCode st.1
              end in
  let series := [Host r; code; SanitizeMethod (Method r)] in
  (ServeHTTP r next w).2 = Ok (Some e) /\
  (forall lvs,
     value_of (requestErrors (httpMetrics w')) lvs
     = value_of (requestErrors (httpMetrics w)) lvs
       + (if bool_decide (lvs = [Host r]) then 1 else 0)) /\
  (forall lvs,
     observations_of (requestDuration (httpMetrics w')) lvs
     = (observations_of (requestDuration (httpMetrics w)) lvs
        ++ if bool_decide (lvs = series)
           then [Seconds (Z.min maxDuration (elapsed (actions next)))]
           else [])%list) /\
  (forall lvs,
     observations_of (requestSize (httpMetrics w')) lvs
     = (observations_of (requestSize (httpMetrics w)) lvs
        ++ if bool_decide (lvs = series)
           then [float64_of_int (computeApproximateRequestSize r)]
           else [])%list) /\
  (forall lvs,
     observations_of (responseSize (httpMetrics w')) lvs
     = (observations_of (responseSize (httpMetrics w)) lvs
        ++ if bool_decide (lvs = series)
           then [float64_of_int (wrap (bytes_written (actions next)))]
           else [])%list).
Proof.
  intros Hout Has. exact_request. rewrite Hout.
  rewrite (subMono_elapsed _ _ (elapsed_nonneg _)).
  rewrite record_actions_new. unfold code_after.
  split; [reflexivity|].
  split; [|split; [|split]]; intros lvs.
  - rewrite (counter_foldl RequestErrors). cbn [counterVec]. f_equal.
    totals; decide_series.
  - rewrite (histogram_foldl RequestDuration). f_equal.
    destruct (last (heads (actions next))) as [st|];
      totals; settle_code; decide_series.
  - rewrite (histogram_foldl RequestSize). f_equal.
    destruct (last (heads (actions next))) as [st|];
      totals; settle_code; decide_series.
  - rewrite (histogram_foldl ResponseSize). f_equal.
    destruct (last (heads (actions next))) as [st|] eqn:Hlast;
      [|apply last_None in Hlast; rewrite (no_heads_no_bytes _ Hlast)];
      totals; settle_code; decide_series.
Qed.

Lemma error_with_status_observed_witness :
  let r := mkRequest (Some "/x") "GET" "HTTP/1.1" ∅ "h" (-1) in
  let e := fmt_Errorf "upstream" (HandlerError 502 None) in
  let next := mkHandler [DoElapse 7] (Returns (Some e)) in
  let w' := (@ServeHTTP sampleSanitizers r next emptyWorld).1 in
  @SanitizeCode sampleSanitizers 502 = "5xx" /\
  (@ServeHTTP sampleSanitizers r next emptyWorld).2 = Ok (Some e) /\
  value_of (requestErrors (httpMetrics w')) ["h"] = 1 /\
  observations_of (requestDuration (httpMetrics w')) ["h"; "0"; "GET"]
  = [Seconds 7] /\
  observations_of (requestDuration (httpMetrics w')) ["h"; "5xx"; "GET"] = [].
Proof.
  intros r e next w'.
  destruct (@error_with_status_observed sampleSanitizers r next emptyWorld e 502
              eq_refl eq_refl) as (Hres & Hv & Hd & _).
  split; [reflexivity|]. split; [exact Hres|]. split; [|split].
  - unfold w'. rewrite (Hv ["h"]). reflexivity.
  - unfold w'. rewrite (Hd ["h"; "0"; "GET"]). reflexivity.
  - unfold w'. rewrite (Hd ["h"; "5xx"; "GET"]). reflexivity.
Defined.

(** C5: when the next handler returns an error from which no status code
    can be extracted, the request duration, request size and response
    size histograms receive no observation, the error counter of the
    host still grows by one, and the error returned is the one the next
    handler returned. *)
Theorem error_without_status_not_observed `{!Sanitizers}
    (r : Request) (next : Handler) (w : World) (e : error) :
  outcome next = Returns (Some e) ->
  errors_As e = None ->
  let w' := (ServeHTTP r next w).1 in
  (ServeHTTP r next w).2 = Ok (Some e) /\
  (forall lvs,
     value_of (requestErrors (httpMetrics w')) lvs
     = value_of (requestErrors (httpMetrics w)) lvs
       + (if bool_decide (lvs = [Host r]) then 1 else 0)) /\
  (forall lvs,
     observations_of (requestDuration (httpMetrics w')) lvs
     = observations_of (requestDuration (httpMetrics w)) lvs) /\
  (forall lvs,
     observations_of (requestSize (httpMetrics w')) lvs
     = observations_of (requestSize (httpMetrics w)) lvs) /\
  (forall lvs,
     observations_of (responseSize (httpMetrics w')) lvs
     = observations_of (responseSize (httpMetrics w)) lvs) /\
  forallb (fun ev => match ev with
                     | EvObserve RequestDuration _ _
                     | EvObserve RequestSize _ _
                     | EvObserve ResponseSize _ _ => false
                     | _ => true
                     end)
          (drop (List.length (log w)) (log w')) = true.
Proof.
  intros Hout Has. exact_request. rewrite Hout.
  split; [reflexivity|]. split; [|split; [|split; [|split]]].
  - intros lvs. rewrite (counter_foldl RequestErrors). cbn [counterVec].
    f_equal. totals; decide_series.
  - intros lvs. rewrite (histogram_foldl RequestDuration). nothing_observed.
    totals; decide_series.
  - intros lvs. rewrite (histogram_foldl RequestSize). nothing_observed.
    totals; decide_series.
  - intros lvs. rewrite (histogram_foldl ResponseSize). nothing_observed.
    totals; decide_series.
  - rewrite drop_app_length.
    unfold request_events, after_return. rewrite Has.
    cbn [app forallb andb]. rewrite forallb_app.
    match goal with
    | |- forallb ?P ?hd && _ = true => assert (Hh : forallb P hd = true)
    end.
    { apply ttfb_only_weaken; [by intros [] ? ?|apply head_events_ttfb]. }
    rewrite Hh. reflexivity.
Qed.

Lemma error_without_status_not_observed_witness :
  let r := mkRequest (Some "/x") "GET" "HTTP/1.1" ∅ "h" (-1) in
  let e := errors_New "connection reset" in
  let next := mkHandler [DoElapse 7] (Returns (Some e)) in
  let w' := (@ServeHTTP sampleSanitizers r next emptyWorld).1 in
  (@ServeHTTP sampleSanitizers r next emptyWorld).2 = Ok (Some e) /\
  value_of (requestErrors (httpMetrics w')) ["h"] = 1 /\
  requestDuration (httpMetrics w') = ∅.
Proof.
  intros r e next w'.
  destruct (@error_without_status_not_observed sampleSanitizers r next emptyWorld e
              eq_refl eq_refl) as [Hres [Hv _]].
  split; [exact Hres|]. split.
  - unfold w'. rewrite (Hv ["h"]). reflexivity.
  - reflexivity.
Defined.

(** Split a membership in an explicit list of events into its cases. *)
Ltac member_cases H :=
  repeat (rewrite ?elem_of_app, ?elem_of_cons, ?elem_of_nil in H);
  repeat match type of H with
         | _ \/ _ => destruct H as [H|H]
         end;
  try discriminate H; try contradiction.

Lemma elem_of_map {A B} (f : A -> B) (l : list A) (y : B) :
  y ∈ map f l <-> exists x, y = f x /\ x ∈ l.
Proof. apply (list_elem_of_fmap f l y). Qed.

(** The events of a request that the hook did not make hold no
    observation of the time to first byte. *)
Lemma request_events_ttfb `{!Sanitizers} r o head c dur wrec :
  forallb is_ttfb_event head = true ->
  List.filter is_ttfb_event (request_events r o head c dur wrec) = head.
Proof.
  intros Hhead. unfold request_events, after_return, finalization.
  cbn [app List.filter is_ttfb_event].
  rewrite List.filter_app, (ttfb_only_filter _ Hhead).
  rewrite <- (app_nil_r head) at 2. f_equal.
  destruct o as [[e|]|]; [destruct (errors_As e)| |]; reflexivity.
Qed.

(** C6 (as amended): the hook observes the time to first byte once for
    every response head that reaches it: each informational (1xx) head
    written before the final head, and the final head; so the events of
    a request hold at most one such observation more than the handler
    makes informational [WriteHeader] calls, at most one when it makes
    none, and none when it writes no response head; every observed time
    to first byte is at most the request duration observed at
    finalization for the same request. *)
Theorem ttfb_once_per_head_and_bounded `{!Sanitizers}
    (r : Request) (next : Handler) (w : World) :
  let w' := (ServeHTTP r next w).1 in
  exists evs,
    log w' = (log w ++ evs)%list /\
    httpMetrics w' = foldl apply_event (httpMetrics w) evs /\
    List.filter is_ttfb_event evs
    = map (fun st : Z * Z =>
             EvObserve ResponseDuration
               [Host r; SanitizeCode st.1; SanitizeMethod (Method r)]
               (Seconds (Z.min maxDuration st.2)))
          (heads (actions next)) /\
    (List.length (List.filter is_ttfb_event evs)
     <= 1 + informational_heads (actions next))%nat /\
    (informational_heads (actions next) = 0%nat ->
     (List.length (List.filter is_ttfb_event evs) <= 1)%nat) /\
    (existsb emits_head (actions next) = false ->
     List.filter is_ttfb_event evs = []) /\
    (forall lvs ttfb lvs' dur,
       EvObserve ResponseDuration lvs ttfb ∈ evs ->
       EvObserve RequestDuration lvs' dur ∈ evs ->
       exists d d', ttfb = Seconds d /\ dur = Seconds d' /\ d <= d').
Proof.
  exact_request.
  eexists. split; [reflexivity|]. split; [reflexivity|].
  rewrite (request_events_ttfb _ _ _ _ _ _ (head_events_ttfb _ _ _ _ _)).
  assert (Hhead : head_events (now w) (Host r) (SanitizeMethod (Method r))
                    (now w) (actions next)
                  = map (fun st : Z * Z =>
                           EvObserve ResponseDuration
                             [Host r; SanitizeCode st.1; SanitizeMethod (Method r)]
                             (Seconds (Z.min maxDuration st.2)))
                        (heads (actions next))).
  { unfold head_events, ttfb_event. apply Forall_fmap_ext_1.
    eapply Forall_impl; [apply heads_time|]. intros st Hst. cbn beta.
    by rewrite (subMono_elapsed _ _ (proj1 Hst)). }
  split; [exact Hhead|].
  pose proof (heads_length (actions next)) as Hlen.
  split; [by rewrite Hhead, length_map|].
  split; [intros Hinf; rewrite Hhead, length_map; lia|].
  split; [intros Hnone; by rewrite Hhead, (no_head_no_heads _ Hnone)|].
  intros lvs ttfb lvs' dur Httfb Hdur.
  rewrite (subMono_elapsed _ _ (elapsed_nonneg _)) in Hdur.
  assert (Hin : exists st, st ∈ heads (actions next)
                           /\ ttfb = Seconds (Z.min maxDuration st.2)).
  { unfold request_events, after_return, finalization in Httfb.
    rewrite Hhead in Httfb.
    rewrite !elem_of_app, elem_of_map in Httfb.
    destruct Httfb as [Httfb|[(st & [= _ ->] & Hst)|[Httfb|Httfb]]].
    - member_cases Httfb.
    - by exists st.
    - destruct (outcome next) as [[e|]|]; [destruct (errors_As e)| |];
        member_cases Httfb.
    - member_cases Httfb. }
  destruct Hin as (st & Hst & ->).
  assert (Hd : dur = Seconds (Z.min maxDuration (elapsed (actions next)))).
  { unfold request_events, after_return, finalization in Hdur.
    rewrite Hhead in Hdur.
    rewrite !elem_of_app, elem_of_map in Hdur.
    destruct Hdur as [Hdur|[(st' & [=] & _)|[Hdur|Hdur]]].
    - member_cases Hdur.
    - destruct (outcome next) as [[e|]|]; [destruct (errors_As e)| |];
        member_cases Hdur; by injection Hdur as _ ->.
    - member_cases Hdur. }
  subst dur. eexists _, _. split; [reflexivity|]. split; [reflexivity|].
  pose proof (proj1 (Forall_forall _ _) (heads_time (actions next)) st Hst).
  cbn beta in *. lia.
Qed.

(** C6, as first stated, fails: a handler that writes an informational
    head and then the final head has its time to first byte observed
    twice. *)
Lemma ttfb_observed_twice :
  let r := mkRequest (Some "/x") "GET" "HTTP/1.1" ∅ "h" (-1) in
  let next := mkHandler [DoWriteHeader 103; DoElapse 2; DoWriteHeader 200]
                        (Returns None) in
  let w' := (@ServeHTTP sampleSanitizers r next emptyWorld).1 in
  List.filter is_ttfb_event (log w')
  = [ EvObserve ResponseDuration ["h"; "1xx"; "GET"] (Seconds 0);
      EvObserve ResponseDuration ["h"; "2xx"; "GET"] (Seconds 2) ].
Proof. vm_compute. reflexivity. Qed.

(** C10 (as amended): when the next handler panics, the panic goes on to
    the caller and the events of the request are the gauge increment,
    the call, the observations of the time to first byte that the hook
    made before the panic (one for each head that reached it, none if
    the handler wrote no response head, at most one if it made no
    informational [WriteHeader] call), the panic and the deferred gauge
    decrement; so the in-flight gauge is back at its value, the two
    counters and the three finalization histograms receive nothing, and
    the time-to-first-byte histogram receives nothing when no head was
    written. *)
Theorem panic_releases_gauge_only `{!Sanitizers}
    (r : Request) (next : Handler) (w : World) :
  outcome next = Panics ->
  let w' := (ServeHTTP r next w).1 in
  (ServeHTTP r next w).2 = Panic /\
  (exists head,
     log w' = (log w ++ [EvGaugeInc [Host r]; EvNextCall] ++ head
                 ++ [EvNextPanic; EvGaugeDec [Host r]])%list /\
     forallb is_ttfb_event head = true /\
     (List.length head <= 1 + informational_heads (actions next))%nat /\
     (informational_heads (actions next) = 0%nat ->
      (List.length head <= 1)%nat) /\
     (existsb emits_head (actions next) = false -> head = [])) /\
  (forall lvs,
     value_of (requestInFlight (httpMetrics w')) lvs
     = value_of (requestInFlight (httpMetrics w)) lvs) /\
  (forall c lvs,
     value_of (counterVec c (httpMetrics w')) lvs
     = value_of (counterVec c (httpMetrics w)) lvs) /\
  (forall h lvs,
     h <> ResponseDuration ->
     observations_of (histogramVec h (httpMetrics w')) lvs
     = observations_of (histogramVec h (httpMetrics w)) lvs) /\
  (existsb emits_head (actions next) = false ->
   forall lvs,
     observations_of (responseDuration (httpMetrics w')) lvs
     = observations_of (responseDuration (httpMetrics w)) lvs).
Proof.
  intros Hout. exact_request. rewrite Hout.
  split; [reflexivity|]. split; [|split; [|split; [|split]]].
  - eexists. split; [reflexivity|].
    split; [apply head_events_ttfb|].
    pose proof (heads_length (actions next)) as Hlen.
    unfold head_events. rewrite length_map.
    split; [exact Hlen|]. split; [lia|].
    intros Hnone. by rewrite (no_head_no_heads _ Hnone).
  - intros lvs. rewrite gauge_foldl. nothing_added.
    totals; repeat case_bool_decide; lia.
  - intros cv lvs. rewrite counter_foldl. nothing_added.
    totals; repeat case_bool_decide; lia.
  - intros h lvs Hh. rewrite histogram_foldl. nothing_observed.
    unfold request_events. rewrite !all_observed_app.
    rewrite (ttfb_only_observed _ _ _ Hh (head_events_ttfb _ _ _ _ _)).
    reflexivity.
  - intros Hnone lvs. rewrite (histogram_foldl ResponseDuration).
    nothing_observed.
    unfold request_events.
    rewrite (proj1 (no_head_run _ _ _ _ "0" _ Hnone)). reflexivity.
Qed.

Lemma panic_releases_gauge_only_witness :
  let r := mkRequest (Some "/x") "GET" "HTTP/1.1" ∅ "h" (-1) in
  let next := mkHandler [DoElapse 4] Panics in
  let w' := (@ServeHTTP sampleSanitizers r next emptyWorld).1 in
  (@ServeHTTP sampleSanitizers r next emptyWorld).2 = Panic /\
  value_of (requestInFlight (httpMetrics w')) ["h"] = 0 /\
  value_of (requestCount (httpMetrics w')) ["h"] = 0.
Proof.
  intros r next w'.
  destruct (@panic_releases_gauge_only sampleSanitizers r next emptyWorld eq_refl)
    as (Hres & _ & Hg & Hc & _).
  split; [exact Hres|]. split.
  - unfold w'. rewrite (Hg ["h"]). reflexivity.
  - etransitivity; [exact (Hc RequestCount ["h"])|reflexivity].
Defined.

(** C10, as first stated, fails: a handler that writes a response head
    and then panics leaves an observation in the time-to-first-byte
    histogram, one of the four histograms. *)
Lemma panic_after_head_observes_ttfb :
  let r := mkRequest (Some "/x") "GET" "HTTP/1.1" ∅ "h" (-1) in
  let next := mkHandler [DoElapse 4; DoWriteHeader 200] Panics in
  let w' := (@ServeHTTP sampleSanitizers r next emptyWorld).1 in
  (@ServeHTTP sampleSanitizers r next emptyWorld).2 = Panic /\
  observations_of (responseDuration (httpMetrics emptyWorld)) ["h"; "2xx"; "GET"] = [] /\
  observations_of (responseDuration (httpMetrics w')) ["h"; "2xx"; "GET"]
  = [Seconds 4].
Proof. vm_compute. repeat split. Qed.

(** C1, the behaviour of the code: when the next handler writes no head
    and returns nil, the code label still holds the value "0" it was
    initialised with when [observeRequest] runs, the test against the
    empty string fails, and the three finalization histograms are
    observed under the code "0", whatever [SanitizeCode] gives for the
    status passed in (the recorder's status, 0). *)
Theorem unset_code_not_replaced `{!Sanitizers}
    (r : Request) (next : Handler) (w : World) :
  existsb emits_head (actions next) = false ->
  outcome next = Returns None ->
  let w' := (ServeHTTP r next w).1 in
  let series := [Host r; "0"; SanitizeMethod (Method r)] in
  exists dur,
    log w' = (log w ++
              [ EvGaugeInc [Host r]; EvNextCall; EvNextReturn None;
                EvCounterInc RequestCount [Host r];
                EvObserve RequestDuration series (Seconds dur);
                EvObserve RequestSize series
                  (float64_of_int (computeApproximateRequestSize r));
                EvObserve ResponseSize series (float64_of_int 0);
                EvGaugeDec [Host r] ])%list.
Proof.
  intros Hnone Hout. exact_request. rewrite Hout.
  destruct (no_head_run (now w) (Host r) (SanitizeMethod (Method r)) (now w)
              "0" _ Hnone) as (-> & -> & ->).
  exists (subMono (now w + elapsed (actions next)) (now w)). reflexivity.
Qed.

Lemma unset_code_not_replaced_witness :
  let r := mkRequest (Some "/") "GET" "HTTP/1.1" ∅ "h" (-1) in
  let next := mkHandler [] (Returns None) in
  let w' := (@ServeHTTP sampleSanitizers r next emptyWorld).1 in
  @SanitizeCode sampleSanitizers 0 = "other" /\
  exists dur,
    log w' =
      [ EvGaugeInc ["h"]; EvNextCall; EvNextReturn None;
        EvCounterInc RequestCount ["h"];
        EvObserve RequestDuration ["h"; "0"; "GET"] (Seconds dur);
        EvObserve RequestSize ["h"; "0"; "GET"] (float64_of_int 13);
        EvObserve ResponseSize ["h"; "0"; "GET"] (float64_of_int 0);
        EvGaugeDec ["h"] ].
Proof.
  intros r next w'. split; [reflexivity|].
  destruct (@unset_code_not_replaced sampleSanitizers r next emptyWorld
              eq_refl eq_refl) as [dur Hlog].
  exists dur. exact Hlog.
Defined.

(** * Further properties *)

(** ** What one request does, exactly *)

(** X1: whenever [ServeHTTP] returns, it returns the very error the next
    handler returned, nil included: it neither swallows an error nor
    makes one of its own. *)
Theorem ServeHTTP_returns_next_error `{!Sanitizers}
    (r : Request) (next : Handler) (w : World) (err : option error) :
  (ServeHTTP r next w).2 = Ok err -> outcome next = Returns err.
Proof.
  rewrite ServeHTTP_exact. cbn [snd]. unfold request_result.
  destruct (outcome next); [by intros [= ->]|discriminate].
Qed.

Lemma ServeHTTP_returns_next_error_witness :
  outcome (mkHandler [DoWrite 3] (Returns (Some (errors_New "closed"))))
  = Returns (Some (errors_New "closed")).
Proof.
  apply (@ServeHTTP_returns_next_error sampleSanitizers
           (mkRequest (Some "/x") "GET" "HTTP/1.1" ∅ "h" (-1)) _ emptyWorld).
  reflexivity.
Defined.

(** X2: a request changes only series of its own host: every gauge,
    counter and histogram series whose first label value is another
    host is after the request what it was before it. *)
Theorem other_hosts_untouched `{!Sanitizers}
    (r : Request) (next : Handler) (w : World) (lvs : list string) :
  head lvs <> Some (Host r) ->
  let m' := httpMetrics (ServeHTTP r next w).1 in
  value_of (requestInFlight m') lvs
  = value_of (requestInFlight (httpMetrics w)) lvs /\
  (forall c, value_of (counterVec c m') lvs
             = value_of (counterVec c (httpMetrics w)) lvs) /\
  (forall h, observations_of (histogramVec h m') lvs
             = observations_of (histogramVec h (httpMetrics w)) lvs).
Proof.
  intros Hother. exact_request.
  assert (Hno : forall c : string, [Host r] <> lvs).
  { intros _ <-. by apply Hother. }
  assert (Hno3 : forall c m : string, [Host r; c; m] <> lvs).
  { intros c m <-. by apply Hother. }
  split; [|split].
  - rewrite gauge_foldl. nothing_added.
    outcome_cases next; totals; repeat case_bool_decide;
      first [lia | exfalso; by eapply (Hno "")].
  - intros c. rewrite counter_foldl. nothing_added.
    outcome_cases next; totals; repeat case_bool_decide;
      first [lia | exfalso; by eapply (Hno ""), proj2].
  - intros h. rewrite histogram_foldl. nothing_observed.
    assert (Hhook : all_observed h lvs
                      (head_events (now w) (Host r) (SanitizeMethod (Method r))
                         (now w) (actions next)) = []).
    { destruct (decide (h = ResponseDuration)) as [->|Hh].
      - rewrite all_observed_head_ttfb.
        induction (heads (actions next)) as [|st l IH]; [done|].
        cbn [flat_map]. rewrite IH.
        rewrite bool_decide_eq_false_2; [done|]. intros ->. by eapply Hno3.
      - by apply ttfb_only_observed, head_events_ttfb. }
    unfold request_events. rewrite !all_observed_app, Hhook.
    unfold after_return, finalization.
    outcome_cases next;
      try match goal with H : errors_As _ = _ |- _ => rewrite H end;
      cbn [all_observed foldr app observed];
      repeat case_bool_decide;
      first [reflexivity | exfalso; by eapply Hno3, proj2].
Qed.

Lemma other_hosts_untouched_witness :
  let r := mkRequest (Some "/x") "GET" "HTTP/1.1" ∅ "a.example" (-1) in
  let next := mkHandler [DoWrite 10] (Returns None) in
  let w := (@ServeHTTP sampleSanitizers
              (mkRequest (Some "/") "GET" "HTTP/1.1" ∅ "b.example" (-1))
              (mkHandler [DoWrite 3] (Returns None)) emptyWorld).1 in
  let m' := httpMetrics (@ServeHTTP sampleSanitizers r next w).1 in
  value_of (requestCount m') ["b.example"] = 1 /\
  observations_of (responseSize m') ["b.example"; "2xx"; "GET"]
  = [float64_of_int 3].
Proof.
  intros r next w m'.
  destruct (@other_hosts_untouched sampleSanitizers r next w ["b.example"])
    as (_ & Hc & _); [vm_compute; discriminate|].
  destruct (@other_hosts_untouched sampleSanitizers r next w
              ["b.example"; "2xx"; "GET"])
    as (_ & _ & Hh); [vm_compute; discriminate|].
  split.
  - etransitivity; [exact (Hc RequestCount)|reflexivity].
  - etransitivity; [exact (Hh ResponseSize)|reflexivity].
Defined.

(** X3: when the next handler returns nil, each of the request
    duration, request size and response size histograms receives one
    observation, in the series of the request's host and sanitized
    method and of the code of the last head that reached the hook (the
    final head if the handler wrote one, the initial "0" if it wrote no
    head at all); the values are the time the handler took, the size
    estimate of the request and the body bytes written; the error
    counter does not change. *)
Theorem success_observed `{!Sanitizers}
    (r : Request) (next : Handler) (w : World) :
  outcome next = Returns None ->
  let m' := httpMetrics (ServeHTTP r next w).1 in
  let code := match last (heads (actions next)) with
              | Some st => SanitizeCode st.1
              | None => "0"
              end in
  let series := [Host r; code; SanitizeMethod (Method r)] in
  (forall lvs,
     value_of (requestErrors m') lvs
     = value_of (requestErrors (httpMetrics w)) lvs) /\
  (forall lvs,
     observations_of (requestDuration m') lvs
     = (observations_of (requestDuration (httpMetrics w)) lvs
        ++ if bool_decide (lvs = series)
           then [Seconds (Z.min maxDuration (elapsed (actions next)))]
           else [])%list) /\
  (forall lvs,
     observations_of (requestSize m') lvs
     = (observations_of (requestSize (httpMetrics w)) lvs
        ++ if bool_decide (lvs = series)
           then [float64_of_int (computeApproximateRequestSize r)]
           else [])%list) /\
  (forall lvs,
     observations_of (responseSize m') lvs
     = (observations_of (responseSize (httpMetrics w)) lvs
        ++ if bool_decide (lvs = series)
           then [float64_of_int (wrap (bytes_written (actions next)))]
           else [])%list).
Proof.
  intros Hout. exact_request. rewrite Hout.
  rewrite (subMono_elapsed _ _ (elapsed_nonneg _)).
  rewrite record_actions_new. unfold code_after.
  split; [|split; [|split]]; intros lvs.
  - rewrite (counter_foldl RequestErrors). cbn [counterVec]. nothing_added.
    totals; decide_series.
  - rewrite (histogram_foldl RequestDuration). f_equal.
    destruct (last (heads (actions next))) as [st|];
      totals; settle_code; decide_series.
  - rewrite (histogram_foldl RequestSize). f_equal.
    destruct (last (heads (actions next))) as [st|];
      totals; settle_code; decide_series.
  - rewrite (histogram_foldl ResponseSize). f_equal.
    destruct (last (heads (actions next))) as [st|] eqn:Hlast;
      [|apply last_None in Hlast; rewrite (no_heads_no_bytes _ Hlast)];
      totals; settle_code; decide_series.
Qed.

Lemma success_observed_witness :
  let r := mkRequest (Some "/x") "GET" "HTTP/1.1" ∅ "h" (-1) in
  let next := mkHandler [DoWriteHeader 103; DoElapse 5; DoWriteHeader 204;
                         DoElapse 3] (Returns None) in
  let m' := httpMetrics (@ServeHTTP sampleSanitizers r next emptyWorld).1 in
  observations_of (requestDuration m') ["h"; "2xx"; "GET"] = [Seconds 8] /\
  observations_of (requestDuration m') ["h"; "1xx"; "GET"] = [] /\
  observations_of (responseSize m') ["h"; "2xx"; "GET"] = [float64_of_int 0].
Proof.
  intros r next m'.
  destruct (@success_observed sampleSanitizers r next emptyWorld eq_refl)
    as (_ & Hd & _ & Hs).
  split; [|split].
  - etransitivity; [exact (Hd _)|reflexivity].
  - etransitivity; [exact (Hd _)|reflexivity].
  - etransitivity; [exact (Hs _)|reflexivity].
Defined.

(** X4: however the handler ends, the time-to-first-byte histogram
    receives exactly one observation for every head that reaches the
    hook (the informational heads before the final head, and the final
    head), each in the series of the request's host and sanitized method
    and of that head's code, with the time that elapsed before the head
    as value; it receives nothing when the handler writes no head. *)
Theorem ttfb_observed_per_head `{!Sanitizers}
    (r : Request) (next : Handler) (w : World) (lvs : list string) :
  let m' := httpMetrics (ServeHTTP r next w).1 in
  observations_of (responseDuration m') lvs
  = (observations_of (responseDuration (httpMetrics w)) lvs
     ++ flat_map (fun st : Z * Z =>
                    if bool_decide
                         (lvs = [Host r; SanitizeCode st.1;
                                 SanitizeMethod (Method r)])
                    then [Seconds (Z.min maxDuration st.2)]
                    else [])
                 (heads (actions next)))%list.
Proof.
  exact_request. rewrite (histogram_foldl ResponseDuration). f_equal.
  unfold request_events. rewrite !all_observed_app, all_observed_head_ttfb.
  rewrite <- (app_nil_r (flat_map _ _)) at 2. cbn [all_observed foldr app observed].
  f_equal. rewrite app_nil_r.
  unfold after_return, finalization.
  outcome_cases next;
    try match goal with H : errors_As _ = _ |- _ => rewrite H end;
    cbn [all_observed foldr app observed]; reflexivity.
Qed.

(** ** What of a handler matters *)

Lemma existsb_heads_shift (d : N) (l : list (Z * Z)) :
  existsb (fun st : Z * Z => negb (informational st.1))
          (map (fun st : Z * Z => (st.1, Z.of_N d + st.2)) l)
  = existsb (fun st : Z * Z => negb (informational st.1)) l.
Proof. induction l as [|[s t] l IH]; cbn; [done|by rewrite <- IH]. Qed.

(** Nothing the handler does after the final head reaches the hook. *)
Lemma heads_app_final acts more :
  wrote_final_head acts = true -> heads (acts ++ more) = heads acts.
Proof.
  unfold wrote_final_head.
  induction acts as [|[status|n|d] acts IH]; cbn [heads app existsb fst].
  - discriminate.
  - destruct (informational status); cbn [negb orb]; [|done].
    intros Hfinal. by rewrite IH.
  - done.
  - rewrite existsb_heads_shift. intros Hfinal. by rewrite IH.
Qed.

(** The final head, if there is one, is the last head. *)
Lemma wrote_final_head_last acts :
  wrote_final_head acts
  = match last (heads acts) with
    | Some st => negb (informational st.1)
    | None => false
    end.
Proof.
  unfold wrote_final_head.
  induction acts as [|[status|n|d] acts IH]; cbn [heads existsb fst].
  - reflexivity.
  - destruct (informational status) eqn:Hinf; cbn [negb orb].
    + rewrite last_cons_heads, IH.
      destruct (last (heads acts)); cbn [default fst]; [done|by rewrite Hinf].
    + cbn. by rewrite Hinf.
  - reflexivity.
  - rewrite existsb_heads_shift, IH, last_map.
    by destruct (last (heads acts)).
Qed.

Lemma elapsed_app acts more : elapsed (acts ++ more) = elapsed acts + elapsed more.
Proof.
  unfold elapsed. induction acts as [|[status|n|d] acts IH]; cbn [foldr app]; lia.
Qed.

Lemma bytes_written_app acts more :
  bytes_written (acts ++ more) = bytes_written acts + bytes_written more.
Proof.
  unfold bytes_written.
  induction acts as [|[status|n|d] acts IH]; cbn [foldr app]; lia.
Qed.

(** A handler matters to [ServeHTTP] by the heads that reach the hook,
    the time it takes, the bytes it writes and the way it ends. *)
Lemma ServeHTTP_summary `{!Sanitizers} (r : Request) (next next' : Handler)
    (w : World) :
  heads (actions next) = heads (actions next') ->
  elapsed (actions next) = elapsed (actions next') ->
  bytes_written (actions next) = bytes_written (actions next') ->
  outcome next = outcome next' ->
  ServeHTTP r next w = ServeHTTP r next' w.
Proof.
  intros Hh He Hb Ho. rewrite !ServeHTTP_exact. cbv zeta.
  unfold head_events, code_after. rewrite !record_actions_new.
  by rewrite Hh, He, Hb, Ho.
Qed.

(** X6: only the heads up to the final one count: a [WriteHeader] that
    the handler calls after it has written a final head (by
    [WriteHeader] with a status outside 100..199, or by a [Write])
    changes nothing, neither a metric nor the log nor the result,
    whatever its status and wherever it comes. *)
Theorem later_WriteHeader_ignored `{!Sanitizers}
    (r : Request) (w : World) (before after : list Action)
    (status : Z) (o : Outcome) :
  wrote_final_head before = true ->
  ServeHTTP r (mkHandler (before ++ DoWriteHeader status :: after) o) w
  = ServeHTTP r (mkHandler (before ++ after) o) w.
Proof.
  intros Hfinal.
  apply ServeHTTP_summary; cbn [actions outcome].
  - by rewrite !(heads_app_final _ _ Hfinal).
  - rewrite !elapsed_app. reflexivity.
  - rewrite !bytes_written_app. reflexivity.
  - reflexivity.
Qed.

Lemma later_WriteHeader_ignored_witness :
  let r := mkRequest (Some "/x") "GET" "HTTP/1.1" ∅ "h" (-1) in
  @ServeHTTP sampleSanitizers r
    (mkHandler [DoWriteHeader 103; DoWrite 4; DoWriteHeader 500; DoElapse 1]
               (Returns None)) emptyWorld
  = @ServeHTTP sampleSanitizers r
      (mkHandler [DoWriteHeader 103; DoWrite 4; DoElapse 1] (Returns None))
      emptyWorld.
Proof.
  intros r.
  exact (@later_WriteHeader_ignored sampleSanitizers r emptyWorld
           [DoWriteHeader 103; DoWrite 4] [DoElapse 1] 500 (Returns None)
           eq_refl).
Defined.

(** X7: wrapping the returned error (as [fmt.Errorf] with [%w] does)
    changes no metric: the status code is found through the wrapping,
    so the store after the request is the one for the bare error. *)
Theorem wrapped_error_same_metrics `{!Sanitizers}
    (r : Request) (w : World) (acts : list Action) (msg : string) (e : error) :
  httpMetrics (ServeHTTP r (mkHandler acts (Returns (Some (fmt_Errorf msg e)))) w).1
  = httpMetrics (ServeHTTP r (mkHandler acts (Returns (Some e))) w).1.
Proof.
  rewrite !ServeHTTP_exact. cbv zeta.
  cbn [fst httpMetrics advance actions outcome].
  unfold request_events, after_return. cbn [errors_As].
  rewrite !foldl_app. reflexivity.
Qed.

(** ** Requests one after the other *)

(** What one request adds to the gauge and to the two counters. *)
Lemma ServeHTTP_counts `{!Sanitizers} (r : Request) (next : Handler)
    (w : World) (lvs : list string) :
  let m' := httpMetrics (ServeHTTP r next w).1 in
  value_of (requestInFlight m') lvs = value_of (requestInFlight (httpMetrics w)) lvs /\
  value_of (requestCount m') lvs
  = value_of (requestCount (httpMetrics w)) lvs
    + (if bool_decide (lvs = [Host r]) && returned next then 1 else 0) /\
  value_of (requestErrors m') lvs
  = value_of (requestErrors (httpMetrics w)) lvs
    + (if bool_decide (lvs = [Host r]) && failed next then 1 else 0).
Proof.
  exact_request. unfold returned, failed. split; [|split].
  - rewrite gauge_foldl. nothing_added.
    outcome_cases next; totals; decide_series.
  - rewrite (counter_foldl RequestCount). cbn [counterVec]. f_equal.
    outcome_cases next; totals;
      cbn [andb]; rewrite ?andb_true_r, ?andb_false_r; decide_series.
  - rewrite (counter_foldl RequestErrors). cbn [counterVec]. f_equal.
    outcome_cases next; totals;
      cbn [andb]; rewrite ?andb_true_r, ?andb_false_r; decide_series.
Qed.

Lemma count_for_cons host p rn reqs :
  count_for host p (rn :: reqs)
  = (if bool_decide ([host] = [Host rn.1]) && p rn.2 then 1 else 0)
    + count_for host p reqs.
Proof.
  unfold count_for. cbn [List.filter].
  assert (Hd : bool_decide ([host] = [Host rn.1]) = bool_decide (Host rn.1 = host)).
  { apply bool_decide_ext. split; [by intros [= ->]|by intros ->]. }
  rewrite Hd.
  destruct (bool_decide (Host rn.1 = host) && p rn.2); cbn [List.length]; lia.
Qed.

(** X8: after any sequence of requests, however each of them ended, the
    in-flight gauge of every host is back at the value it had before
    the sequence, the request counter of a host has grown by the number
    of its requests whose handler returned, and its error counter by
    the number of those that returned an error. *)
Theorem serve_all_counts `{!Sanitizers}
    (reqs : list (Request * Handler)) (w : World) (host : string) :
  let m' := httpMetrics (serve_all reqs w) in
  value_of (requestInFlight m') [host]
  = value_of (requestInFlight (httpMetrics w)) [host] /\
  value_of (requestCount m') [host]
  = value_of (requestCount (httpMetrics w)) [host]
    + count_for host returned reqs /\
  value_of (requestErrors m') [host]
  = value_of (requestErrors (httpMetrics w)) [host]
    + count_for host failed reqs.
Proof.
  cbv zeta. unfold serve_all. revert w.
  induction reqs as [|[r next] reqs IH]; intros w; cbn [foldl].
  - unfold count_for. cbn. repeat split; lia.
  - destruct (IH (ServeHTTP r next w).1) as (Hg & Hc & He).
    destruct (ServeHTTP_counts r next w [host]) as (Hg1 & Hc1 & He1).
    rewrite !count_for_cons. cbn [fst snd] in *.
    rewrite Hg, Hc, He, Hg1, Hc1, He1. repeat split; lia.
Qed.

(** X9: errors never outnumber requests: a series of the error counter
    that is at most the same series of the request counter stays so
    through any sequence of requests. *)
Theorem errors_at_most_requests `{!Sanitizers}
    (reqs : list (Request * Handler)) (w : World) (lvs : list string) :
  value_of (requestErrors (httpMetrics w)) lvs
    <= value_of (requestCount (httpMetrics w)) lvs ->
  value_of (requestErrors (httpMetrics (serve_all reqs w))) lvs
    <= value_of (requestCount (httpMetrics (serve_all reqs w))) lvs.
Proof.
  unfold serve_all. revert w.
  induction reqs as [|[r next] reqs IH]; intros w Hle; cbn [foldl]; [done|].
  apply IH. cbn [fst snd].
  destruct (ServeHTTP_counts r next w lvs) as (_ & -> & ->).
  unfold returned, failed.
  destruct (bool_decide (lvs = [Host r])); cbn [andb]; [|lia].
  destruct (outcome next) as [[e|]|]; lia.
Qed.

Lemma errors_at_most_requests_witness :
  let r := mkRequest (Some "/x") "GET" "HTTP/1.1" ∅ "h" (-1) in
  let reqs := [ (r, mkHandler [DoWrite 1] (Returns None));
                (r, mkHandler [] (Returns (Some (errors_New "reset"))));
                (r, mkHandler [DoWriteHeader 200] Panics) ] in
  let m' := httpMetrics (@serve_all sampleSanitizers reqs emptyWorld) in
  value_of (requestErrors m') ["h"] <= value_of (requestCount m') ["h"].
Proof.
  intros r reqs m'.
  apply (@errors_at_most_requests sampleSanitizers reqs emptyWorld ["h"]).
  vm_compute. discriminate.
Defined.
(** ** More on the size estimator *)

Lemma wrap_range z : in_range (wrap z).
Proof.
  unfold in_range, wrap, min_int, max_int, int_bits.
  pose proof (Z.mod_pos_bound (z + 2 ^ (64 - 1)) (2 ^ 64) ltac:(lia)). lia.
Qed.

Lemma wrap_congruent z : exists k, wrap z = z + k * 2 ^ 64.
Proof.
  exists (- ((z + 2 ^ 63) / 2 ^ 64)). unfold wrap, int_bits.
  change (64 - 1) with 63.
  pose proof (Z.div_mod (z + 2 ^ 63) (2 ^ 64) ltac:(lia)). lia.
Qed.

Lemma add_header_field_any (s : Z) (nv : string * list string) :
  add_header_field s nv = wrap (s + field_bytes nv).
Proof.
  unfold add_header_field, field_bytes, int_add.
  rewrite foldl_values_wrap. f_equal. lia.
Qed.

Lemma sum_fields_permutation (l l' : list (string * list string)) :
  l ≡ₚ l' ->
  foldr (fun nv acc => field_bytes nv + acc) 0 l
  = foldr (fun nv acc => field_bytes nv + acc) 0 l'.
Proof. intros Hperm. induction Hperm; cbn [foldr]; lia. Qed.

Lemma header_bytes_insert (h : gmap string (list string)) name values :
  h !! name = None ->
  header_bytes (<[name := values]> h) = field_bytes (name, values) + header_bytes h.
Proof.
  intros Hfresh. unfold header_bytes.
  by rewrite (sum_fields_permutation _ _ (map_to_list_insert h name values Hfresh)).
Qed.

(** X10: the estimate is always an [int], and it is the sum of the
    lengths of the URL, method, protocol, header names and values and
    host, plus the content-length unless that is -1, up to a multiple of
    2^64: the sum as Go's 64-bit arithmetic computes it. *)
Theorem computeApproximateRequestSize_modular (r : Request) :
  min_int <= computeApproximateRequestSize r <= max_int /\
  exists k,
    computeApproximateRequestSize r
    = from_option len 0 (URL r) + len (Method r) + len (Proto r)
      + header_bytes (Header r) + len (Host r)
      + (if bool_decide (ContentLength r = -1) then 0 else ContentLength r)
      + k * 2 ^ 64.
Proof.
  rewrite computeApproximateRequestSize_wrap. split.
  - apply wrap_range.
  - apply wrap_congruent.
Qed.

(** X11: the order in which the header fields are visited does not
    matter: the loop over the header map gives the same sum for every
    order of the same fields, so Go's unspecified map iteration order
    does not show in the estimate. *)
Theorem header_order_irrelevant (fields fields' : list (string * list string))
    (s : Z) :
  fields ≡ₚ fields' ->
  foldl add_header_field s fields = foldl add_header_field s fields'.
Proof.
  intros Hperm. revert s.
  induction Hperm as [|nv l l' _ IH|nv nv' l|l l' l'' _ IH1 _ IH2]; intros s;
    cbn [foldl].
  - reflexivity.
  - apply IH.
  - f_equal. rewrite !add_header_field_any, !wrap_add_l. f_equal. lia.
  - by rewrite IH1, IH2.
Qed.

Lemma header_order_irrelevant_witness :
  foldl add_header_field 7 [("Accept", ["*/*"]); ("Cookie", ["a=1"; "b=2"])]
  = foldl add_header_field 7 [("Cookie", ["a=1"; "b=2"]); ("Accept", ["*/*"])].
Proof.
  apply header_order_irrelevant. apply perm_swap.
Defined.

(** X12: a header field that the request did not have adds the length
    of its name and of each of its values to the estimate (in [int]
    arithmetic). *)
Theorem new_header_adds_its_bytes (r : Request) (name : string)
    (values : list string) :
  Header r !! name = None ->
  computeApproximateRequestSize (with_Header (<[name := values]> (Header r)) r)
  = wrap (computeApproximateRequestSize r
          + len name + foldr (fun value acc => len value + acc) 0 values).
Proof.
  intros Hfresh. rewrite !computeApproximateRequestSize_wrap.
  rewrite <- Z.add_assoc, wrap_add_l. f_equal.
  unfold exact_size, with_Header.
  cbn [URL Method Proto Header Host ContentLength].
  rewrite (header_bytes_insert _ _ _ Hfresh). unfold field_bytes.
  cbn [fst snd]. lia.
Qed.

Lemma new_header_adds_its_bytes_witness :
  let r := mkRequest (Some "/x") "GET" "HTTP/1.1" {[ "Accept" := ["*/*"] ]} "h" (-1) in
  computeApproximateRequestSize
    (with_Header (<["Cookie" := ["a=1"; "b=2"]]> (Header r)) r)
  = computeApproximateRequestSize r + 6 + 6.
Proof.
  intros r.
  rewrite (new_header_adds_its_bytes r "Cookie" ["a=1"; "b=2"]); reflexivity.
Defined.

(** ** More on the registry *)

Section RegistryOnce.
Import Registry.

Lemma register_after (reg ds : registry) (o : Opts) (labels : list string)
    (k : Kind) :
  BuildFQName (Namespace o) (Subsystem o) (Name o) ∉ map fqName ds ->
  register o labels k (reg ++ ds)%list
  = if bool_decide (BuildFQName (Namespace o) (Subsystem o) (Name o)
                    ∈ map fqName reg)
    then None
    else Some (reg ++ (ds ++ [mkDesc (BuildFQName (Namespace o) (Subsystem o) (Name o))
                                     (Help o) labels k]))%list.
Proof.
  intros Hfresh. unfold register. rewrite map_app.
  assert (Hd : bool_decide
                 (BuildFQName (Namespace o) (Subsystem o) (Name o)
                  ∈ (map fqName reg ++ map fqName ds)%list)
               = bool_decide
                   (BuildFQName (Namespace o) (Subsystem o) (Name o)
                    ∈ map fqName reg)).
  { apply bool_decide_ext. rewrite elem_of_app. tauto. }
  rewrite Hd. by rewrite <- app_assoc.
Qed.

Lemma bind_if_none {A B} (b : bool) (x : A) (f : A -> option B) :
  (if b then None else Some x) ≫= f = if b then None else f x.
Proof. by destruct b. Qed.

(** A name that evaluates to be outside a list of names is outside it. *)
Ltac fresh_name :=
  refine (proj1 (bool_decide_eq_false _) _); vm_compute; reflexivity.

(** X13: [init] is a one-time operation: it succeeds exactly when none
    of the seven names is registered yet, and then registers its seven
    collectors after the ones already there, which it leaves as they
    are; when one of the names is taken, as after a first [init], it
    panics. *)
Theorem init_only_once (reg : registry) :
  init reg
  = if bool_decide (Exists (fun d => fqName d ∈ map fqName reg) instruments)
    then None
    else Some (reg ++ instruments)%list.
Proof.
  unfold init.
  rewrite <- (app_nil_r reg) at 1.
  rewrite register_after by fresh_name. rewrite bind_if_none.
  rewrite register_after by fresh_name. rewrite bind_if_none.
  rewrite register_after by fresh_name. rewrite bind_if_none.
  let v := eval vm_compute in (ExponentialBuckets (256 # 1) (4 # 1) 8) in
  change (ExponentialBuckets (256 # 1) (4 # 1) 8) with v.
  cbn [mbind option_bind].
  rewrite register_after by fresh_name. rewrite bind_if_none.
  rewrite register_after by fresh_name. rewrite bind_if_none.
  rewrite register_after by fresh_name. rewrite bind_if_none.
  rewrite register_after by fresh_name.
  let l := eval vm_compute in instruments in change instruments with l.
  cbn [BuildFQName Namespace Subsystem Name Help ns sub].
  repeat match goal with
         | |- context [bool_decide (?n ∈ map fqName reg)] =>
             destruct (decide (n ∈ map fqName reg));
             [ rewrite (bool_decide_eq_true_2 (n ∈ map fqName reg)) by done
             | rewrite (bool_decide_eq_false_2 (n ∈ map fqName reg)) by done ]
         end;
    first
      [ (* a name is taken *)
        symmetry; rewrite bool_decide_eq_true_2; [reflexivity|];
        repeat first [ by apply Exists_cons_hd | apply Exists_cons_tl ]
      | (* all names are free *)
        rewrite bool_decide_eq_false_2; [reflexivity|];
        rewrite !Exists_cons, Exists_nil; cbn [fqName]; tauto ].
Qed.

End RegistryOnce.

(** ** Configuration *)

(** X14: the directive takes no argument.  For a dispenser as the setup
    function receives it (before the directive's name), [parseCaddyfile]
    returns an error exactly when the name is followed on its line by a
    token that does not open a block; the error is the dispenser's
    argument error at that token.  A name alone, a name followed by a
    block, and tokens on later lines are accepted. *)
Theorem parseCaddyfile_rejects_arguments
    (isNextOnNewLine : Caddyfile.Token -> Caddyfile.Token -> bool)
    (ArgErr : Caddyfile.Dispenser -> error)
    (toks : list Caddyfile.Token) :
  (forall name, head toks = Some name -> Caddyfile.Text name <> "{") ->
  (Caddyfile.parseCaddyfile isNextOnNewLine ArgErr
     (Caddyfile.NewDispenser toks)).2.2
  = match toks with
    | name :: arg :: _ =>
        if negb (isNextOnNewLine name arg)
           && negb (bool_decide (Caddyfile.Text arg = "{"))
        then Some (ArgErr (Caddyfile.mkDispenser toks 1))
        else None
    | _ => None
    end.
Proof.
  intros Hname.
  unfold Caddyfile.parseCaddyfile, Caddyfile.UnmarshalCaddyfile,
    Caddyfile.NextArg, Caddyfile.nextOnSameLine, Caddyfile.NewDispenser,
    Caddyfile.Val.
  cbn [Caddyfile.cursor Caddyfile.tokens].
  rewrite (bool_decide_eq_true_2 (-1 < 0)) by lia.
  cbn [negb Caddyfile.cursor Caddyfile.tokens].
  change (-1 + 1) with 0.
  destruct toks as [|name [|arg rest]].
  - (* no token at all *)
    rewrite (bool_decide_eq_true_2 (0 < 0 \/ _)) by (cbn; lia).
    rewrite (bool_decide_eq_false_2 ("" = "{")) by discriminate.
    cbn [Caddyfile.cursor Caddyfile.tokens].
    rewrite (bool_decide_eq_false_2 (0 < 0)) by lia.
    rewrite (bool_decide_eq_true_2 (_ <= 0)) by (cbn; lia).
    reflexivity.
  - (* the name alone *)
    rewrite (bool_decide_eq_false_2 (0 < 0 \/ _)) by (cbn; lia).
    cbn [lookup list_lookup Z.to_nat from_option].
    rewrite (bool_decide_eq_false_2 (Caddyfile.Text name = "{"))
      by (by apply Hname).
    cbn [Caddyfile.cursor Caddyfile.tokens].
    rewrite (bool_decide_eq_false_2 (0 < 0)) by lia.
    rewrite (bool_decide_eq_true_2 (_ <= 0)) by (cbn; lia).
    reflexivity.
  - (* the name and a further token *)
    rewrite (bool_decide_eq_false_2 (0 < 0 \/ _)) by (cbn [List.length]; lia).
    cbn [lookup list_lookup Z.to_nat from_option].
    rewrite (bool_decide_eq_false_2 (Caddyfile.Text name = "{"))
      by (by apply Hname).
    cbn [Caddyfile.cursor Caddyfile.tokens].
    rewrite (bool_decide_eq_false_2 (0 < 0)) by lia.
    rewrite (bool_decide_eq_false_2 (_ <= 0)) by (cbn [List.length]; lia).
    change (Z.to_nat 0) with 0%nat. change (Z.to_nat (0 + 1)) with 1%nat.
    cbn [lookup list_lookup].
    destruct (isNextOnNewLine name arg); cbn [negb andb]; [reflexivity|].
    cbn [Caddyfile.cursor Caddyfile.tokens].
    change (0 + 1) with 1.
    rewrite (bool_decide_eq_false_2 (1 < 0 \/ _)) by (cbn [List.length]; lia).
    change (Z.to_nat 1) with 1%nat. cbn [lookup list_lookup from_option].
    case_bool_decide; reflexivity.
Qed.

Lemma parseCaddyfile_rejects_arguments_witness :
  let new_line (a b : Caddyfile.Token) :=
    negb (bool_decide (Caddyfile.File a = Caddyfile.File b))
    || Z.ltb (Caddyfile.Line a) (Caddyfile.Line b) in
  let ArgErr (d : Caddyfile.Dispenser) :=
    errors_New ("wrong argument count or unexpected line ending after "
                ++ Caddyfile.Val d) in
  let toks := [ Caddyfile.mkToken "Caddyfile" 3 "extend_metrics";
                Caddyfile.mkToken "Caddyfile" 3 "verbose" ] in
  (Caddyfile.parseCaddyfile new_line ArgErr (Caddyfile.NewDispenser toks)).2.2
  = Some (errors_New
            "wrong argument count or unexpected line ending after verbose").
Proof.
  intros new_line ArgErr toks.
  rewrite (parseCaddyfile_rejects_arguments new_line ArgErr toks).
  - reflexivity.
  - intros name [= <-]. discriminate.
Defined.


(** ** The hook never buffers *)

(** X15: the hook answers "do not buffer" every time, so the recorder
    streams every response: after the handler's actions the recorder is
    in streaming mode exactly when the handler wrote a head,
    informational or final; it counts the head as written exactly when
    a final head (a status outside 100..199) was written; its status is
    that of the last head that reached the hook and its size the number
    of body bytes written. *)
Theorem recorder_streams `{!Sanitizers}
    (start : Z) (h m c : string) (acts : list Action) (w : World) :
  exists w' labels wrec,
    run_actions (writeHeaderRecorder start) acts (status_labels h m c)
                NewResponseRecorder w
    = (w', Ok (labels, wrec)) /\
    stream wrec = existsb emits_head acts /\
    wroteHeader wrec = wrote_final_head acts /\
    Status wrec = match last (heads acts) with
                  | Some st => st.1
                  | None => 0
                  end /\
    Size wrec = wrap (bytes_written acts).
Proof.
  rewrite run_actions_exact by reflexivity.
  eexists _, _, _. split; [reflexivity|].
  rewrite record_actions_new, wrote_final_head_last, heads_emits.
  destruct (last (heads acts)) as [st|] eqn:Hlast.
  - destruct (heads acts); [discriminate|]. cbn. done.
  - apply last_None in Hlast. rewrite (no_heads_no_bytes _ Hlast), Hlast.
    cbn. done.
Qed.
